(** * MonetDBe-Python: the low-level session layer [monetdbe/_cffi/internal.py]

    A shallow embedding of the [Internal] class and of the helper
    functions of [internal.py]: connection life cycle ([open], [close],
    [_switch]), the operations that run against the single native
    connection, bulk [append] with its schema validation, result clean-up,
    parameter binding and the materialisation of result columns as masked
    arrays; and of the timestamp converter of [monetdbe/dbapi2.py].

    The embedded engine (the cffi [lib] object) is opaque: it is a record
    of response functions that see the history of calls made so far.  Every
    call the binding makes is recorded, in order, in the [calls] field of
    the world, so that "before the engine is touched" is a statement about
    that record.  What cffi does at the boundary is part of the model: a
    Python [int] is converted to the C type of the field or parameter it
    goes to ([OverflowError] when it does not fit), and a buffer made with
    [ffi.new] lives only as long as the object that owns it. *)

From Stdlib Require Import ZArith NArith List String Ascii Bool Lia DecimalString.
From stdpp Require Import base option list gmap.
Import ListNotations.

Set Default Proof Using "Type".

(** ** Python strings and bytes *)

(** A Python [str] is a sequence of code points; [bytes] is a sequence of
    octets. *)
Definition str := list N.
Definition bytes := list Byte.byte.

(** A string literal of the source (ASCII only). *)
Definition lit (s : string) : str := map N_of_ascii (list_ascii_of_string s).

Definition byte_of_N (n : N) : Byte.byte :=
  match Byte.of_N n with Some b => b | None => Byte.x00 end.

(** [str.encode()] with the default codec: UTF-8, strict.  Lone surrogates
    cannot be encoded ([UnicodeEncodeError]); code points above U+10FFFF do
    not occur in a [str]. *)
Definition utf8_char (c : N) : option bytes :=
  if (c <? 0x80)%N then Some [byte_of_N c]
  else if (c <? 0x800)%N then
    Some [byte_of_N (N.lor 0xC0 (N.shiftr c 6));
          byte_of_N (N.lor 0x80 (N.land c 0x3F))]
  else if (c <? 0x10000)%N then
    if ((0xD800 <=? c) && (c <=? 0xDFFF))%N then None
    else Some [byte_of_N (N.lor 0xE0 (N.shiftr c 12));
               byte_of_N (N.lor 0x80 (N.land (N.shiftr c 6) 0x3F));
               byte_of_N (N.lor 0x80 (N.land c 0x3F))]
  else if (c <? 0x110000)%N then
    Some [byte_of_N (N.lor 0xF0 (N.shiftr c 18));
          byte_of_N (N.lor 0x80 (N.land (N.shiftr c 12) 0x3F));
          byte_of_N (N.lor 0x80 (N.land (N.shiftr c 6) 0x3F));
          byte_of_N (N.lor 0x80 (N.land c 0x3F))]
  else None.

Fixpoint utf8 (s : str) : option bytes :=
  match s with
  | [] => Some []
  | c :: r =>
      match utf8_char c, utf8 r with
      | Some b, Some br => Some (b ++ br)
      | _, _ => None
      end
  end.

(** [str(i)] for an [int]. *)
Definition str_of_Z (z : Z) : str := lit (NilZero.string_of_int (Z.to_int z)).

(** [sep.join(items)] *)
Fixpoint join (sep : str) (items : list str) : str :=
  match items with
  | [] => []
  | [x] => x
  | x :: r => x ++ sep ++ join sep r
  end.

(** ** Exceptions *)

Inductive exn :=
| OperationalError (msg : str)
| ProgrammingError (msg : str)
| ValueError (msg : str)
| KeyError
| IndexError
| TypeError
| OverflowError
| UnicodeEncodeError
| StopIteration
| HelperError (msg : str).   (* raised inside helpers of other modules *)

Inductive res (A : Type) :=
| Ok (a : A)
| Raise (e : exn).
Arguments Ok {A} a.
Arguments Raise {A} e.

Definition is_ok {A} (r : res A) : bool :=
  match r with Ok _ => true | Raise _ => false end.

(** ** Python values handed to [bind] *)

(** [py_other] stands for an object of any other type (float, date,
    Decimal, ...); it carries what its [__str__] returns. *)
Inductive pyval :=
| py_none
| py_bool (b : bool)
| py_int (z : Z)
| py_str (s : str)
| py_other (text : str).

(** The builtin [str(data)].  For an [int] the interpreter refuses to
    build a decimal text of more than [sys.get_int_max_str_digits()]
    digits ([max_str_digits], 4300 unless changed; 0 when the limit is
    switched off or the interpreter has none). *)
Definition digits_message (max_str_digits : Z) : str :=
  lit "Exceeds the limit (" ++ str_of_Z max_str_digits
    ++ lit " digits) for integer string conversion; "
    ++ lit "use sys.set_int_max_str_digits() to increase the limit".

Definition py_str_of (max_str_digits : Z) (data : pyval) : res str :=
  match data with
  | py_none => Ok (lit "None")
  | py_bool true => Ok (lit "True")
  | py_bool false => Ok (lit "False")
  | py_int z =>
      if ((0 <? max_str_digits) && (10 ^ max_str_digits <=? Z.abs z))%Z
      then Raise (ValueError (digits_message max_str_digits))
      else Ok (str_of_Z z)
  | py_str s => Ok s
  | py_other text => Ok text
  end.

(** ** Pointers *)

(** C pointers; [0] is [NULL].  A cffi pointer is falsy exactly when it is
    [NULL], and an attribute that is still [None] is falsy too. *)
Definition ptr := Z.

Definition truthy (p : option ptr) : bool :=
  match p with
  | Some a => negb (a =? 0)%Z
  | None => false
  end.

(** ** Arrays *)

(** The numpy dtypes that occur: [np.bool_], signed and unsigned integers
    and floats of a given width in bits, and [np.object_]. *)
Inductive dtype :=
| dt_bool
| dt_int (bits : Z)
| dt_uint (bits : Z)
| dt_float (bits : Z)
| dt_object.

Definition itemsize (dt : dtype) : Z :=
  match dt with
  | dt_bool => 1
  | dt_int bits | dt_uint bits | dt_float bits => bits / 8
  | dt_object => 8
  end.

(** [numpy_type.type == np.object_] *)
Definition is_object (dt : dtype) : bool :=
  match dt with dt_object => true | _ => false end.

(** An array is either a view of a foreign buffer ([np.frombuffer]: no
    element is copied, the array reads the buffer), a new array built from
    a list of Python objects ([np.array]), or the result of converting such
    an array ([astype], which always copies). *)
Inductive ndarray :=
| nd_frombuffer (data : ptr) (count : nat) (dt : dtype)
| nd_array (items : list pyval)
| nd_astype (items : list pyval) (target : str).

(** [np.ma.nomask], or a boolean array. *)
Inductive mask :=
| nomask
| mask_array (bits : list bool).

Record masked_array := { ma_data : ndarray; ma_mask : mask }.

(** A [monetdbe_column] of a result, as the binding reads it. *)
Record monetdbe_column := {
  col_type : Z;
  col_name : option bytes;     (* char *, possibly NULL *)
  col_count : nat;
  col_data : ptr
}.

(** A [monetdbe_result]. *)
Record monetdbe_result := {
  result_ptr : ptr;
  nrows : nat;
  ncols : nat
}.

(** An entry of [monet_numpy_map]: the C type name, the numpy dtype and
    the null sentinel (the conversion function, second in the tuple, is
    unpacked but not used by [internal.py]). *)
Record map_entry := {
  cast_string : str;
  numpy_type : dtype;
  monetdbe_null : option Z
}.

(** An array passed to [append]: its dtype, [shape[0]] and the address of
    its buffer. *)
Record column_values := {
  cv_dtype : dtype;
  cv_shape0 : nat;
  cv_buffer : ptr
}.

(** ** The engine and the record of calls *)

Record monetdbe_options := {
  opt_memorylimit : Z;
  opt_querytimeout : Z;
  opt_sessiontimeout : Z;
  opt_nr_threads : Z
}.

(** One [monetdbe_column] descriptor built by [append].  The field [name]
    is a [char *]: it holds an address, not the text. *)
Record work_column := {
  wc_type : Z;
  wc_count : nat;
  wc_name : ptr;
  wc_data : ptr
}.

(** Every call into [lib], with its arguments and what came back. *)
Inductive Call :=
| c_open (url : option bytes) (opts : monetdbe_options) (conn : ptr) (code : Z)
| c_close (conn : ptr) (code : Z)
| c_error (conn : ptr) (text : str)
| c_query (conn : ptr) (query : bytes) (make_result : bool)
          (result : ptr) (affected_rows : Z) (status : Z)
| c_cleanup_result (conn : ptr) (result : ptr) (status : Z)
| c_set_autocommit (conn : ptr) (value : Z) (status : Z)
| c_in_transaction (conn : ptr) (answer : Z)
| c_append (conn : ptr) (schema table : bytes)
           (columns : list (option work_column)) (n_columns : nat) (status : Z)
| c_prepare (conn : ptr) (query : bytes) (stmt : ptr) (status : Z)
| c_bind (stmt : ptr) (data : bytes) (parameter_nr : Z) (status : Z)
| c_cleanup_statement (conn : ptr) (stmt : ptr)
| c_get_columns (conn : ptr) (schema table : bytes)
                (columns : list (str * Z)) (status : Z)
| c_result_fetch (result : ptr) (column : nat) (status : Z).

(** The engine: each entry point answers from the calls made so far.
    [monetdbe_error] and the column names of [monetdbe_get_columns] are
    taken as already decoded text.  [monetdbe_get_columns] answers with its
    status and with what the three out-parameters show afterwards
    ([count_p[0]] names and types; nothing when the engine wrote nothing). *)
Record Engine := {
  monetdbe_open : list Call -> option bytes -> monetdbe_options -> ptr * Z;
  monetdbe_close : list Call -> ptr -> Z;
  monetdbe_error : list Call -> ptr -> str;
  monetdbe_query : list Call -> ptr -> bytes -> bool -> ptr * Z * Z;
  monetdbe_cleanup_result : list Call -> ptr -> ptr -> Z;
  monetdbe_set_autocommit : list Call -> ptr -> Z -> Z;
  monetdbe_in_transaction : list Call -> ptr -> Z;
  monetdbe_append :
    list Call -> ptr -> bytes -> bytes -> list (option work_column) -> nat -> Z;
  monetdbe_prepare : list Call -> ptr -> bytes -> ptr * Z;
  monetdbe_bind : list Call -> ptr -> bytes -> Z -> Z;
  monetdbe_get_columns : list Call -> ptr -> bytes -> bytes -> list (str * Z) * Z;
  monetdbe_result_fetch : list Call -> ptr -> nat -> monetdbe_column * Z;
  (* the tags of the enum [monetdbe_types] that [internal.py] names *)
  monetdbe_str : Z;
  monetdbe_date : Z;
  monetdbe_time : Z;
  monetdbe_timestamp : Z
}.

(** ** The process state *)

(** The three class attributes of [Internal] are process-wide: the
    classmethods [set_active_context], [set_in_memory_active] and
    [set_connection] assign them on the class, and every instance reads
    them through the class.  [_active_context] holds a reference to an
    [Internal] object; objects are compared by identity. *)
Record World := {
  _active_context : option nat;
  in_memory_active : bool;
  _connection : option ptr;
  calls : list Call;
  warnings : list str
}.

Definition initial_world : World :=
  {| _active_context := None; in_memory_active := false;
     _connection := None; calls := []; warnings := [] |}.

(** An [Internal] object: its identity and the attributes set by
    [__init__]. *)
Record Internal := {
  ident : nat;
  dbdir : option str;
  memorylimit : Z;
  querytimeout : Z;
  sessiontimeout : Z;
  nr_threads : Z;
  have_hge : bool
}.

(** ** The monad of the binding: state and exceptions *)

Definition M (A : Type) := World -> res A * World.

Definition ret {A} (a : A) : M A := fun w => (Ok a, w).
Definition raise {A} (e : exn) : M A := fun w => (Raise e, w).
Definition bind_ {A B} (m : M A) (k : A -> M B) : M B :=
  fun w => match m w with
           | (Ok a, w') => k a w'
           | (Raise e, w') => (Raise e, w')
           end.

Declare Scope py_scope.
Delimit Scope py_scope with py.
Notation "x <- m ;; k" := (bind_ m (fun x => k))
  (at level 100, m at next level, right associativity) : py_scope.
Notation "m ;; k" := (bind_ m (fun _ => k))
  (at level 100, right associativity) : py_scope.
Open Scope py_scope.

Definition gets {A} (f : World -> A) : M A := fun w => (Ok (f w), w).

Definition set_active_context (active_context : option nat) : M unit :=
  fun w => (Ok tt, {| _active_context := active_context;
                      in_memory_active := in_memory_active w;
                      _connection := _connection w;
                      calls := calls w; warnings := warnings w |}).

Definition set_in_memory_active (value : bool) : M unit :=
  fun w => (Ok tt, {| _active_context := _active_context w;
                      in_memory_active := value;
                      _connection := _connection w;
                      calls := calls w; warnings := warnings w |}).

Definition set_connection (connection : option ptr) : M unit :=
  fun w => (Ok tt, {| _active_context := _active_context w;
                      in_memory_active := in_memory_active w;
                      _connection := connection;
                      calls := calls w; warnings := warnings w |}).

Definition record_call (c : Call) : M unit :=
  fun w => (Ok tt, {| _active_context := _active_context w;
                      in_memory_active := in_memory_active w;
                      _connection := _connection w;
                      calls := calls w ++ [c]; warnings := warnings w |}).

Definition warn (message : str) : M unit :=
  fun w => (Ok tt, {| _active_context := _active_context w;
                      in_memory_active := in_memory_active w;
                      _connection := _connection w;
                      calls := calls w; warnings := warnings w ++ [message] |}).

(** The world after further engine calls. *)
Definition add_calls (w : World) (cs : list Call) : World :=
  {| _active_context := _active_context w;
     in_memory_active := in_memory_active w;
     _connection := _connection w;
     calls := calls w ++ cs; warnings := warnings w |}.

(** A computation of the interpreter that returns or raises. *)
Definition lift {A} (r : res A) : M A :=
  match r with Ok a => ret a | Raise e => raise e end.

(** [s.encode()] *)
Definition encode (s : str) : M bytes :=
  match utf8 s with
  | Some b => ret b
  | None => raise UnicodeEncodeError
  end.

(** Passing [self._connection] to a [lib] function: cffi refuses [None]
    for a pointer argument. *)
Definition connection_arg : M ptr :=
  c <- gets _connection ;;
  match c with
  | Some p => ret p
  | None => raise TypeError
  end.

(** Storing a Python [int] in a C [int] field and passing one for a
    [size_t] parameter (64 bits): cffi raises [OverflowError] when the value
    does not fit the C type. *)
Definition fits_int (z : Z) : bool := ((- 2 ^ 31 <=? z) && (z <? 2 ^ 31))%Z.
Definition fits_size_t (z : Z) : bool := ((0 <=? z) && (z <? 2 ^ 64))%Z.

Definition c_int (z : Z) : M Z :=
  if fits_int z then ret z else raise OverflowError.

Definition c_size_t (z : Z) : M Z :=
  if fits_size_t z then ret z else raise OverflowError.

(** ** A scripted engine for the examples *)

(** An engine whose answers are fixed in advance: the codes of [open] and
    [close], the columns and status of [get_columns], and the status of
    every other call.  Each [open] hands out a fresh non-null handle; a
    result released a second time is reported as an error. *)
Definition released (h : list Call) (result : ptr) : bool :=
  existsb (fun c => match c with
                    | c_cleanup_result _ r _ => (r =? result)%Z
                    | _ => false
                    end) h.

Definition scripted (open_code close_code : Z)
    (columns : list (str * Z)) (columns_status status : Z) : Engine :=
  {| monetdbe_open := fun h _ _ => (1000 + Z.of_nat (length h), open_code)%Z;
     monetdbe_close := fun _ _ => close_code;
     monetdbe_error := fun _ _ => lit "engine says no";
     monetdbe_query := fun h _ _ _ => (2000 + Z.of_nat (length h), 0, status)%Z;
     monetdbe_cleanup_result := fun h _ r => if released h r then 1%Z else status;
     monetdbe_set_autocommit := fun _ _ _ => status;
     monetdbe_in_transaction := fun _ _ => 0%Z;
     monetdbe_append := fun _ _ _ _ _ _ => status;
     monetdbe_prepare := fun h _ _ => (3000 + Z.of_nat (length h), status)%Z;
     monetdbe_bind := fun _ _ _ _ => status;
     monetdbe_get_columns := fun _ _ _ _ => (columns, columns_status);
     monetdbe_result_fetch := fun _ _ c =>
       ({| col_type := Z.of_nat c; col_name := None; col_count := 2;
           col_data := 64%Z |}, status);
     monetdbe_str := 9%Z; monetdbe_date := 11%Z;
     monetdbe_time := 12%Z; monetdbe_timestamp := 13%Z |}.

(** Two objects: one in memory, one on disk. *)
Definition in_memory_session (id : nat) : Internal :=
  {| ident := id; dbdir := None; memorylimit := 0; querytimeout := 0;
     sessiontimeout := 0; nr_threads := 0; have_hge := false |}.

Definition on_disk_session (id : nat) (path : str) : Internal :=
  {| ident := id; dbdir := Some path; memorylimit := 0; querytimeout := 0;
     sessiontimeout := 0; nr_threads := 0; have_hge := false |}.

(** The process with a connection held for object [id]. *)
Definition world_with (id : nat) (conn : ptr) (flag : bool) : World :=
  {| _active_context := Some id; in_memory_active := flag;
     _connection := Some conn; calls := []; warnings := [] |}.

(** Stand-ins for what the file system and [convert.py] provide, used in
    the examples only. *)
Definition example_resolve (d : str) : str := d.

Definition example_error_text (status : Z) : str :=
  lit "engine error " ++ str_of_Z status.

Definition example_make_string (name : option bytes) : str :=
  match name with
  | Some b => map Byte.to_N b
  | None => []
  end.

Definition example_extract (rcol : monetdbe_column) (r : nat) : res pyval :=
  Ok (py_other (lit "12:30:00")).

(** A table in the style of [monet_numpy_map]: 32-bit integers with the
    smallest value as sentinel, strings and times as objects. *)
Definition example_map (tag : Z) : option map_entry :=
  if (tag =? 3)%Z then
    Some {| cast_string := lit "int32_t"; numpy_type := dt_int 32;
            monetdbe_null := Some (- 2 ^ 31)%Z |}
  else if (tag =? 4)%Z then
    Some {| cast_string := lit "int64_t"; numpy_type := dt_int 64;
            monetdbe_null := Some (- 2 ^ 63)%Z |}
  else if (tag =? 9)%Z then
    Some {| cast_string := lit "str"; numpy_type := dt_object;
            monetdbe_null := None |}
  else if (tag =? 12)%Z then
    Some {| cast_string := lit "time"; numpy_type := dt_object;
            monetdbe_null := None |}
  else None.

Definition example_numpy_monetdb_map (dt : dtype) : res (str * Z) :=
  match dt with
  | dt_int 32 => Ok (lit "int32_t", 3%Z)
  | dt_int 64 => Ok (lit "int64_t", 4%Z)
  | _ => Raise (HelperError (lit "unsupported dtype"))
  end.

(** An allocator that hands out the same address again once a buffer has
    been released. *)
Definition example_name_buffer (column_num : nat) (name : bytes) : ptr := 4096%Z.

(** A memory that holds, from address 64 on, the 32-bit words
    [0x80000000] and [7], and zeros elsewhere. *)
Definition example_memory (addr : Z) : Byte.byte :=
  if (addr =? 67)%Z then Byte.x80
  else if (addr =? 68)%Z then Byte.x07
  else Byte.x00.

Definition example_float_eqb (a b : Z) : bool := (a =? b)%Z.
Definition example_converted_eqb (target : str) (v : pyval) (s : Z) : bool := false.

Definition two_rows (columns : nat) : monetdbe_result :=
  {| result_ptr := 77%Z; nrows := 2; ncols := columns |}.

Definition int32_values : column_values :=
  {| cv_dtype := dt_int 32; cv_shape0 := 2; cv_buffer := 64%Z |}.

Definition int64_values : column_values :=
  {| cv_dtype := dt_int 64; cv_shape0 := 2; cv_buffer := 128%Z |}.

(** Stand-ins for the builtins the converter uses: [int] on a text of
    decimal digits and the constructor of [datetime.datetime], which here
    only collects its arguments. *)
Definition example_int_of_bytes (b : bytes) : res Z :=
  match b with
  | [] => Raise (ValueError (lit "invalid literal for int() with base 10"))
  | _ =>
      if forallb (fun c => (48 <=? Byte.to_N c) && (Byte.to_N c <=? 57))%N b
      then Ok (fold_left (fun acc c => 10 * acc + (Z.of_N (Byte.to_N c) - 48))%Z b 0%Z)
      else Raise (ValueError (lit "invalid literal for int() with base 10"))
  end.

Definition example_int_of_str (s : str) : res Z :=
  match s with
  | [] => Raise (ValueError (lit "invalid literal for int() with base 10"))
  | _ =>
      if forallb (fun c => (48 <=? c) && (c <=? 57))%N s
      then Ok (fold_left (fun acc c => 10 * acc + (Z.of_N c - 48))%Z s 0%Z)
      else Raise (ValueError (lit "invalid literal for int() with base 10"))
  end.

Definition example_decode (b : bytes) : res str := Ok (map Byte.to_N b).

Definition example_datetime (year month day hours minutes seconds microseconds : Z)
  : res (list Z) :=
  Ok [year; month; day; hours; minutes; seconds; microseconds].

Definition ascii_bytes (s : string) : bytes := map byte_of_N (lit s).

(** ** The binding, over an arbitrary engine *)

Section Binding.

Variable lib : Engine.

(** [str(self.dbdir.resolve().absolute())]: the file system decides. *)
Variable resolve : str -> str.

(** The text [check_error] puts into its exception. *)
Variable error_text : Z -> str.

(** *** Calls into [lib], recorded *)

Definition lib_open (url : option bytes) (opts : monetdbe_options) : M (ptr * Z) :=
  h <- gets calls ;;
  let '(conn, code) := monetdbe_open lib h url opts in
  record_call (c_open url opts conn code) ;;
  ret (conn, code).

Definition lib_close (conn : ptr) : M Z :=
  h <- gets calls ;;
  let code := monetdbe_close lib h conn in
  record_call (c_close conn code) ;;
  ret code.

Definition lib_error (conn : ptr) : M str :=
  h <- gets calls ;;
  let text := monetdbe_error lib h conn in
  record_call (c_error conn text) ;;
  ret text.

Definition lib_query (conn : ptr) (query : bytes) (make_result : bool)
  : M (ptr * Z * Z) :=
  h <- gets calls ;;
  let '(result, affected_rows, status) := monetdbe_query lib h conn query make_result in
  record_call (c_query conn query make_result result affected_rows status) ;;
  ret (result, affected_rows, status).

Definition lib_cleanup_result (conn result : ptr) : M Z :=
  h <- gets calls ;;
  let status := monetdbe_cleanup_result lib h conn result in
  record_call (c_cleanup_result conn result status) ;;
  ret status.

Definition lib_set_autocommit (conn : ptr) (value : Z) : M Z :=
  h <- gets calls ;;
  let status := monetdbe_set_autocommit lib h conn value in
  record_call (c_set_autocommit conn value status) ;;
  ret status.

Definition lib_in_transaction (conn : ptr) : M Z :=
  h <- gets calls ;;
  let answer := monetdbe_in_transaction lib h conn in
  record_call (c_in_transaction conn answer) ;;
  ret answer.

Definition lib_append (conn : ptr) (schema table : bytes)
  (columns : list (option work_column)) (n_columns : nat) : M Z :=
  h <- gets calls ;;
  let status := monetdbe_append lib h conn schema table columns n_columns in
  record_call (c_append conn schema table columns n_columns status) ;;
  ret status.

Definition lib_prepare (conn : ptr) (query : bytes) : M (ptr * Z) :=
  h <- gets calls ;;
  let '(stmt, status) := monetdbe_prepare lib h conn query in
  record_call (c_prepare conn query stmt status) ;;
  ret (stmt, status).

Definition lib_bind (stmt : ptr) (data : bytes) (parameter_nr : Z) : M Z :=
  h <- gets calls ;;
  let status := monetdbe_bind lib h stmt data parameter_nr in
  record_call (c_bind stmt data parameter_nr status) ;;
  ret status.

Definition lib_cleanup_statement (conn stmt : ptr) : M unit :=
  record_call (c_cleanup_statement conn stmt).

Definition lib_get_columns (conn : ptr) (schema table : bytes)
  : M (list (str * Z) * Z) :=
  h <- gets calls ;;
  let '(columns, status) := monetdbe_get_columns lib h conn schema table in
  record_call (c_get_columns conn schema table columns status) ;;
  ret (columns, status).

(** Modelled from the spec: [check_error] of [monetdbe/_cffi/errors.py],
    which is not among the sources.  A non-zero engine status becomes an
    [OperationalError]; a zero status returns. *)
Definition check_error (status : Z) : M unit :=
  if (status =? 0)%Z then ret tt
  else raise (OperationalError (error_text status)).

(** *** [Internal.open] *)

(** The dictionary [errors] of [open], looked up with a default. *)
Definition errors_get (result_code : Z) (default : str) : str :=
  if (result_code =? 0)%Z then lit "OK"
  else if (result_code =? -1)%Z then lit "Allocation failed"
  else if (result_code =? -2)%Z then lit "Error in DB"
  else default.

Definition open_message (error : str) (result_code : Z) : str :=
  lit "Failed to open database: " ++ error ++ lit " (code "
    ++ str_of_Z result_code ++ lit ")".

(** The [monetdbe_options] struct as [open] fills it in when every option
    fits its field; the conversions themselves are in [c_options]. *)
Definition options_of (self : Internal) : monetdbe_options :=
  {| opt_memorylimit := memorylimit self;
     opt_querytimeout := querytimeout self;
     opt_sessiontimeout := sessiontimeout self;
     opt_nr_threads := nr_threads self |}.

(** The assignments to the four [int] fields of [p_options], in the order
    of the source; each one converts its value. *)
Definition c_options (self : Internal) : M monetdbe_options :=
  memorylimit <- c_int (memorylimit self) ;;
  querytimeout <- c_int (querytimeout self) ;;
  sessiontimeout <- c_int (sessiontimeout self) ;;
  nr_threads <- c_int (nr_threads self) ;;
  ret {| opt_memorylimit := memorylimit; opt_querytimeout := querytimeout;
         opt_sessiontimeout := sessiontimeout; opt_nr_threads := nr_threads |}.

Definition open (self : Internal) : M ptr :=
  url <- match dbdir self with
         | None => ret None
         | Some d => b <- encode (resolve d) ;; ret (Some b)
         end ;;
  p_options <- c_options self ;;
  opened <- lib_open url p_options ;;
  let '(connection, result_code) := opened in
  if negb (result_code =? 0)%Z then
    error <- (if (result_code =? -2)%Z then
                error <- lib_error connection ;;
                lib_close connection ;;
                ret error
              else ret (errors_get result_code (lit "unknown error"))) ;;
    raise (OperationalError (open_message error result_code))
  else ret connection.

(** *** [Internal.close] *)

Definition close (self : Internal) : M unit :=
  conn <- gets _connection ;;
  (if truthy conn then
     match conn with
     | Some c =>
         code <- lib_close c ;;
         if negb (code =? 0)%Z
         then raise (OperationalError (lit "Failed to close database"))
         else set_connection None
     | None => ret tt
     end
   else ret tt) ;;
  active <- gets _active_context ;;
  (if active is Some _ then set_active_context None else ret tt) ;;
  (if dbdir self is None then set_in_memory_active true else ret tt).

(** *** [Internal._switch] *)

Definition is_active (self : Internal) (w : World) : bool :=
  bool_decide (_active_context w = Some (ident self)).

Definition _switch (self : Internal) : M unit :=
  active <- gets (is_active self) ;;
  if active then ret tt
  else
    close self ;;
    connection <- open self ;;
    set_connection (Some connection) ;;
    set_active_context (Some (ident self)) ;;
    (if dbdir self is None then set_in_memory_active true else ret tt).

(** [Internal.__init__]: the attributes are those of [self]; the only
    effect on the process is the [_switch]. *)
Definition __init__ (self : Internal) : M unit := _switch self.

(** [Internal.__del__] *)
Definition __del__ (self : Internal) : M unit :=
  active <- gets (is_active self) ;;
  if active then close self else ret tt.

(** *** [Internal.cleanup_result] *)

Definition cleanup_result (self : Internal) (result : option ptr) : M unit :=
  conn <- gets _connection ;;
  if truthy result && truthy conn then
    match result, conn with
    | Some r, Some c => status <- lib_cleanup_result c r ;; check_error status
    | _, _ => ret tt
    end
  else ret tt.

(** *** The operations that run on the connection *)

Definition query (self : Internal) (query : str) (make_result : bool)
  : M (option ptr * Z) :=
  _switch self ;;
  q <- encode query ;;
  conn <- connection_arg ;;
  answer <- lib_query conn q make_result ;;
  let '(p_result, affected_rows, status) := answer in
  check_error status ;;
  ret (if make_result then Some p_result else None, affected_rows).

Definition set_autocommit (self : Internal) (value : bool) : M unit :=
  _switch self ;;
  conn <- connection_arg ;;
  status <- lib_set_autocommit conn (if value then 1 else 0)%Z ;;
  check_error status.

Definition in_transaction (self : Internal) : M bool :=
  _switch self ;;
  conn <- connection_arg ;;
  answer <- lib_in_transaction conn ;;
  ret (negb (answer =? 0)%Z).

Definition prepare (self : Internal) (query : str) : M ptr :=
  _switch self ;;
  q <- encode query ;;
  conn <- connection_arg ;;
  answer <- lib_prepare conn q ;;
  let '(stmt, status) := answer in
  check_error status ;;
  ret stmt.

Definition cleanup_statement (self : Internal) (statement : ptr) : M unit :=
  _switch self ;;
  conn <- connection_arg ;;
  lib_cleanup_statement conn statement.

(** *** [bind] *)

(** [sys.get_int_max_str_digits()] of the interpreter. *)
Variable int_max_str_digits : Z.

(** The arguments are evaluated first ([str(data).encode()] may raise);
    the call then converts them, [parameter_nr] to [size_t]. *)
Definition bind (statement : ptr) (data : pyval) (parameter_nr : Z) : M unit :=
  s <- lift (py_str_of int_max_str_digits data) ;;
  text <- encode s ;;
  parameter_nr <- c_size_t parameter_nr ;;
  status <- lib_bind statement text parameter_nr ;;
  check_error status.


(** *** [Internal.get_columns]: a generator *)

(** Calling [get_columns] runs nothing: it returns a generator object.
    The body starts at the first [next]; between two [yield]s the object
    keeps the out-parameters and the loop index, here the rows not yet
    yielded.  A generator whose body returned or raised is finished. *)
Inductive generator :=
| gen_created (self : Internal) (table schema : str)
| gen_suspended (rest : list (str * Z))
| gen_finished.

Definition get_columns (self : Internal) (table schema : str) : generator :=
  gen_created self table schema.

(** The body up to the loop: what the out-parameters hold afterwards. *)
Definition get_columns_enter (self : Internal) (table schema : str)
  : M (list (str * Z)) :=
  _switch self ;;
  s <- encode schema ;;
  t <- encode table ;;
  conn <- connection_arg ;;
  answer <- lib_get_columns conn s t ;;
  ret (fst answer).

(** The loop from a given position: yield the next row or stop. *)
Definition resume (rows : list (str * Z)) : res (str * Z) * generator :=
  match rows with
  | row :: rest => (Ok row, gen_suspended rest)
  | [] => (Raise StopIteration, gen_finished)
  end.

(** [next(g)] *)
Definition next_ (g : generator) (w : World) : res (str * Z) * generator * World :=
  match g with
  | gen_created self table schema =>
      match get_columns_enter self table schema w with
      | (Ok rows, w') => (resume rows, w')
      | (Raise e, w') => (Raise e, gen_finished, w')
      end
  | gen_suspended rest => (resume rest, w)
  | gen_finished => (Raise StopIteration, gen_finished, w)
  end.

(** [list(g)]: everything the generator still yields. *)
Definition list_ (g : generator) : M (list (str * Z)) :=
  match g with
  | gen_created self table schema => get_columns_enter self table schema
  | gen_suspended rest => ret rest
  | gen_finished => ret []
  end.

(** [list(g)] as the interpreter runs it: [next] until [StopIteration]. *)
Fixpoint iterate (fuel : nat) (g : generator) (acc : list (str * Z)) (w : World)
  : option (res (list (str * Z)) * generator * World) :=
  match fuel with
  | O => None
  | S fuel' =>
      match next_ g w with
      | (Ok row, g', w') => iterate fuel' g' (acc ++ [row]) w'
      | (Raise StopIteration, g', w') => Some (Ok acc, g', w')
      | (Raise e, g', w') => Some (Raise e, g', w')
      end
  end.


(** *** [Internal.append] *)

(** The two tables of [monetdbe/_cffi/convert.py], which is not among the
    sources: [monet_numpy_map], a dictionary keyed by engine type tag, and
    the function [numpy_monetdb_map], which maps a dtype to a C type name
    and an engine type tag or raises. *)
Variable monet_numpy_map : Z -> option map_entry.
Variable numpy_monetdb_map : dtype -> res (str * Z).

(** [monet_numpy_map[tag]] *)
Definition monet_numpy_map_item (tag : Z) : M map_entry :=
  match monet_numpy_map tag with
  | Some entry => ret entry
  | None => raise KeyError
  end.

(** [data[column_name]] on the mapping [data] *)
Fixpoint data_item (data : list (str * column_values)) (column_name : str)
  : M column_values :=
  match data with
  | [] => raise KeyError
  | (k, v) :: r => if bool_decide (k = column_name) then ret v
                   else data_item r column_name
  end.

(** The unpacking [existing_names, existing_types = zip( *existing_columns )]:
    [zip] of no argument yields nothing, and unpacking nothing into two
    names fails. *)
Definition unzip_columns (existing_columns : list (str * Z))
  : M (list str * list Z) :=
  match existing_columns with
  | [] => raise (ValueError (lit "not enough values to unpack (expected 2, got 0)"))
  | _ :: _ => ret (map fst existing_columns, map snd existing_columns)
  end.

Definition names_message (keys existing_names : list str) : str :=
  lit "Appended column names (" ++ join (lit ", ") keys
    ++ lit ") don't match existing column names ("
    ++ join (lit ", ") existing_names ++ lit ")".

Definition type_message (work_type_string column_name existing_type_string : str)
  : str :=
  lit "Type '" ++ work_type_string ++ lit "' for appended column '"
    ++ column_name ++ lit "' does not match table type '"
    ++ existing_type_string ++ lit "'".

(** [work_columns[column_num] = work_column] on a C array of [n_columns]
    pointers. *)
Definition array_set (work_columns : list (option work_column))
  (column_num : nat) (wc : work_column) : M (list (option work_column)) :=
  if bool_decide (column_num < length work_columns)%nat
  then ret (<[column_num := Some wc]> work_columns)
  else raise IndexError.

(** [ffi.new('char[]', b)] allocates a buffer that lives as long as the
    cdata object it returns; [name_buffer column_num b] is the address of
    the buffer allocated for the name of column [column_num].  The
    allocator decides. *)
Variable name_buffer : nat -> bytes -> ptr.

(** One round of the loop over [enumerate(existing_columns)].  The
    assignment to [work_column.name] stores the address of the new buffer;
    the cdata object that owns the buffer is a temporary, dropped when the
    assignment is done, and the buffer is released with it.  The field
    therefore holds a dangling address by the time the engine is called;
    the array behind [work_column.data] stays alive in [data]. *)
Definition append_column (data : list (str * column_values))
  (work_columns : list (option work_column)) (column_num : nat)
  (column : str * Z) : M (list (option work_column)) :=
  let '(column_name, existing_type) := column in
  column_values <- data_item data column_name ;;
  work <- lift (numpy_monetdb_map (cv_dtype column_values)) ;;
  let '(work_type_string, work_type) := work in
  if negb (work_type =? existing_type)%Z then
    entry <- monet_numpy_map_item existing_type ;;
    raise (ProgrammingError
             (type_message work_type_string column_name (cast_string entry)))
  else
    name <- encode column_name ;;
    array_set work_columns column_num
      {| wc_type := work_type; wc_count := cv_shape0 column_values;
         wc_name := name_buffer column_num name;
         wc_data := cv_buffer column_values |}.

Fixpoint append_loop (data : list (str * column_values))
  (work_columns : list (option work_column)) (column_num : nat)
  (existing_columns : list (str * Z)) : M (list (option work_column)) :=
  match existing_columns with
  | [] => ret work_columns
  | column :: rest =>
      work_columns' <- append_column data work_columns column_num column ;;
      append_loop data work_columns' (S column_num) rest
  end.

(** [set(existing_names) == set(data.keys())] *)
Definition same_names (existing_names keys : list str) : bool :=
  bool_decide (list_to_set existing_names =@{gset str} list_to_set keys).

Definition append (self : Internal) (table : str)
  (data : list (str * column_values)) (schema : str) : M unit :=
  _switch self ;;
  let n_columns := length data in
  existing_columns <- list_ (get_columns self table schema) ;;
  unzipped <- unzip_columns existing_columns ;;
  let '(existing_names, existing_types) := unzipped in
  if negb (same_names existing_names (map fst data)) then
    raise (ProgrammingError (names_message (map fst data) existing_names))
  else
    work_columns <- append_loop data (replicate n_columns None) 0 existing_columns ;;
    s <- encode schema ;;
    t <- encode table ;;
    conn <- connection_arg ;;
    status <- lib_append conn s t work_columns n_columns ;;
    check_error status.


(** *** [result_fetch] and [result_fetch_numpy] *)

Definition lib_result_fetch (result : ptr) (column : nat) : M (monetdbe_column * Z) :=
  h <- gets calls ;;
  let '(rcol, status) := monetdbe_result_fetch lib h result column in
  record_call (c_result_fetch result column status) ;;
  ret (rcol, status).

Definition result_fetch (result : monetdbe_result) (column : nat)
  : M monetdbe_column :=
  answer <- lib_result_fetch (result_ptr result) column ;;
  check_error (snd answer) ;;
  ret (fst answer).

(** The helpers [make_string] and [extract] of [convert.py] (not among the
    sources): the first decodes a C string, the second reads one row of a
    column as a Python object and may raise. *)
Variable make_string : option bytes -> str.
Variable extract : monetdbe_column -> nat -> res pyval.

(** The memory of the process while the result is alive; result buffers
    belong to the engine and stay as they are until the result is cleaned
    up. *)
Variable memory : Z -> Byte.byte.

(** Equality of two floats given by their bit patterns, and of a converted
    element with an integer: numpy decides both. *)
Variable float_eqb : Z -> Z -> bool.
Variable converted_eqb : str -> pyval -> Z -> bool.

(** [n] bytes at [addr], little endian. *)
Fixpoint le_bytes (addr : Z) (n : nat) : Z :=
  match n with
  | O => 0
  | S k => (Z.of_N (Byte.to_N (memory addr)) + 256 * le_bytes (addr + 1) k)%Z
  end.

(** Element [i] of a view of a buffer: a signed integer is read in two's
    complement, a bool is 0 or 1, a float is left as its bit pattern. *)
Definition load (dt : dtype) (data : ptr) (i : nat) : Z :=
  let raw := le_bytes (data + Z.of_nat i * itemsize dt) (Z.to_nat (itemsize dt)) in
  match dt with
  | dt_int bits => if (raw <? 2 ^ (bits - 1))%Z then raw else (raw - 2 ^ bits)%Z
  | dt_bool => if (raw =? 0)%Z then 0%Z else 1%Z
  | _ => raw
  end.

(** [np.frombuffer(ffi.buffer(data, buffer_size), dtype=dt)]: a view with
    as many elements as fit in the buffer. *)
Definition np_frombuffer (data : ptr) (buffer_size : Z) (dt : dtype) : ndarray :=
  nd_frombuffer data (Z.to_nat (buffer_size / itemsize dt)) dt.

(** [a.astype(target)] *)
Definition astype (a : ndarray) (target : str) : ndarray :=
  match a with
  | nd_array items | nd_astype items _ => nd_astype items target
  | nd_frombuffer data count dt =>
      nd_astype (map (fun i => py_int (load dt data i)) (seq 0 count)) target
  end.

(** [v == s] for a Python object [v] and an [int] [s] *)
Definition pyval_eq_int (v : pyval) (s : Z) : bool :=
  match v with
  | py_int z => (z =? s)%Z
  | py_bool b => ((if b then 1 else 0) =? s)%Z
  | _ => false
  end.

(** The elements of the boolean array [np_col == monetdbe_null] *)
Definition elementwise_eq (np_col : ndarray) (s : Z) : list bool :=
  match np_col with
  | nd_frombuffer data count dt =>
      map (fun i => match dt with
                    | dt_float _ => float_eqb (load dt data i) s
                    | _ => (load dt data i =? s)%Z
                    end) (seq 0 count)
  | nd_array items => map (fun v => pyval_eq_int v s) items
  | nd_astype items target => map (fun v => converted_eqb target v s) items
  end.

(** [[extract(rcol, r) for r in range(n)]] *)
Fixpoint extract_rows (rcol : monetdbe_column) (from n : nat) : M (list pyval) :=
  match n with
  | O => ret []
  | S k =>
      v <- lift (extract rcol from) ;;
      r <- extract_rows rcol (S from) k ;;
      ret (v :: r)
  end.

Definition time_warning : str :=
  lit "Not converting column with type column since no proper numpy equivalent".

(** One round of the loop of [result_fetch_numpy]: column [c] as a name
    and a masked array. *)
Definition fetch_column (result : monetdbe_result) (c : nat)
  : M (str * masked_array) :=
  rcol <- result_fetch result c ;;
  let name := make_string (col_name rcol) in
  entry <- monet_numpy_map_item (col_type rcol) ;;
  np_col <-
    (if is_object (numpy_type entry) then
       items <- extract_rows rcol 0 (nrows result) ;;
       let np_col := nd_array items in
       if (col_type rcol =? monetdbe_str lib)%Z then
         ret (astype np_col (lit "str"))
       else if (col_type rcol =? monetdbe_date lib)%Z then
         ret (astype np_col (lit "datetime64[D]"))
       else if (col_type rcol =? monetdbe_time lib)%Z then
         warn time_warning ;; ret np_col
       else if (col_type rcol =? monetdbe_timestamp lib)%Z then
         ret (astype np_col (lit "datetime64[ns]"))
       else ret np_col
     else
       let buffer_size := (Z.of_nat (nrows result) * itemsize (numpy_type entry))%Z in
       ret (np_frombuffer (col_data rcol) buffer_size (numpy_type entry))) ;;
  let mask :=
    match monetdbe_null entry with
    | Some s => if negb (s =? 0)%Z then mask_array (elementwise_eq np_col s)
                else nomask
    | None => nomask
    end in
  ret (name, {| ma_data := np_col; ma_mask := mask |}).

Fixpoint fetch_columns (result : monetdbe_result) (c n : nat)
  (result_dict : gmap str masked_array) : M (gmap str masked_array) :=
  match n with
  | O => ret result_dict
  | S k =>
      column <- fetch_column result c ;;
      fetch_columns result (S c) k (<[fst column := snd column]> result_dict)
  end.

Definition result_fetch_numpy (result : monetdbe_result)
  : M (gmap str masked_array) :=
  fetch_columns result 0 (ncols result) ∅.


(** ** Vocabulary of the statements *)

(** The [url] argument [open] computes, when it can be encoded. *)
Definition open_url (self : Internal) : option (option bytes) :=
  match dbdir self with
  | None => Some None
  | Some d => Some <$> utf8 (resolve d)
  end.

(** Every option of [self] fits the C [int] field it is stored in. *)
Definition options_fit (self : Internal) : bool :=
  fits_int (memorylimit self) && fits_int (querytimeout self)
  && fits_int (sessiontimeout self) && fits_int (nr_threads self).

(** The process after a [close] that did not raise. *)
Definition closed (self : Internal) (w : World) : World :=
  {| _active_context := None;
     in_memory_active := if dbdir self is None then true else in_memory_active w;
     _connection := if truthy (_connection w) then None else _connection w;
     calls := calls w; warnings := warnings w |}.

(** *** Native connections that are open *)

(** The handles the engine has handed out with code 0 and has not yet
    closed with code 0, read off the record of calls. *)
Fixpoint remove_handle (conn : ptr) (l : list ptr) : list ptr :=
  match l with
  | [] => []
  | x :: r => if (x =? conn)%Z then r else x :: remove_handle conn r
  end.

Definition live_step (l : list ptr) (c : Call) : list ptr :=
  match c with
  | c_open _ _ conn code =>
      if (code =? 0)%Z && negb (conn =? 0)%Z then conn :: l else l
  | c_close conn code => if (code =? 0)%Z then remove_handle conn l else l
  | _ => l
  end.

Definition live (cs : list Call) : list ptr := fold_left live_step cs [].

(** The handle the process holds in [Internal._connection]. *)
Definition held (w : World) : list ptr :=
  match _connection w with
  | Some c => if (c =? 0)%Z then [] else [c]
  | None => []
  end.

(** The open native connections are exactly the one the process holds, and
    an active session has a connection. *)
Definition single_connection (w : World) : Prop :=
  live (calls w) = held w
  /\ (_active_context w <> None -> _connection w <> None).

(** A call that goes to connection [conn] and neither opens nor closes. *)
Definition on_connection (conn : option ptr) (c : Call) : Prop :=
  match c with
  | c_query c' _ _ _ _ _ | c_cleanup_result c' _ _ | c_set_autocommit c' _ _
  | c_in_transaction c' _ | c_append c' _ _ _ _ _ | c_prepare c' _ _ _
  | c_cleanup_statement c' _ | c_get_columns c' _ _ _ _ => conn = Some c'
  | c_bind _ _ _ _ | c_result_fetch _ _ _ => True
  | c_open _ _ _ _ | c_close _ _ | c_error _ _ => False
  end.

(** Running [m] from [w] leaves the session as it is and only talks to
    the connection of [w]. *)
Definition steady_at {A} (w : World) (m : M A) : Prop :=
  _connection (m w).2 = _connection w
  /\ _active_context (m w).2 = _active_context w
  /\ exists cs, calls (m w).2 = calls w ++ cs
                /\ Forall (on_connection (_connection w)) cs.

(** The six operations that run a statement on the connection. *)
Inductive operation :=
| do_query (query : str) (make_result : bool)
| do_prepare (query : str)
| do_append (table : str) (data : list (str * column_values)) (schema : str)
| do_set_autocommit (value : bool)
| do_in_transaction
| do_get_columns (table schema : str).

(** Performing one of them on [self], the result forgotten.  A
    [get_columns] is performed by consuming the generator. *)
Definition perform (self : Internal) (o : operation) : M unit :=
  match o with
  | do_query q make_result => query self q make_result ;; ret tt
  | do_prepare q => prepare self q ;; ret tt
  | do_append table data schema => append self table data schema
  | do_set_autocommit value => set_autocommit self value
  | do_in_transaction => in_transaction self ;; ret tt
  | do_get_columns table schema => list_ (get_columns self table schema) ;; ret tt
  end.

(** Everything a client can do to the process through [Internal]. *)
Inductive api :=
| api_init (self : Internal)
| api_del (self : Internal)
| api_close (self : Internal)
| api_perform (self : Internal) (o : operation)
| api_next (g : generator)
| api_cleanup_statement (self : Internal) (statement : ptr)
| api_cleanup_result (self : Internal) (result : option ptr)
| api_bind (statement : ptr) (data : pyval) (parameter_nr : Z).

Definition step (w : World) (a : api) : World :=
  match a with
  | api_init self => (__init__ self w).2
  | api_del self => (__del__ self w).2
  | api_close self => (close self w).2
  | api_perform self o => (perform self o w).2
  | api_next g => (next_ g w).2
  | api_cleanup_statement self statement => (cleanup_statement self statement w).2
  | api_cleanup_result self result => (cleanup_result self result w).2
  | api_bind statement data parameter_nr => (bind statement data parameter_nr w).2
  end.

(** The process after a sequence of API calls, from a fresh interpreter. *)
Definition after (history : list api) : World := fold_left step history initial_world.

(** The process after [_switch] has installed a new connection. *)
Definition installed (self : Internal) (conn : ptr) (w : World) : World :=
  {| _active_context := Some (ident self);
     in_memory_active := if dbdir self is None then true else in_memory_active w;
     _connection := Some conn;
     calls := calls w; warnings := warnings w |}.

(** A call that opens or closes a connection, or asks for the error text. *)
Definition lifecycle (c : Call) : Prop :=
  match c with
  | c_open _ _ _ _ | c_close _ _ | c_error _ _ => True
  | _ => False
  end.

(** [m] neither calls the engine nor touches the process state. *)
Definition stateless {A} (m : M A) : Prop := forall w, (m w).2 = w.

(** [m] runs [self._switch()] before anything else: run from any state it
    does what it does from the state [_switch] leaves, and when [_switch]
    raises, nothing else happens. *)
Definition switch_first {A} (self : Internal) (m : M A) : Prop :=
  forall w, m w = match _switch self w with
                  | (Ok _, w1) => m w1
                  | (Raise e, w1) => (Raise e, w1)
                  end.

(** What the engine says the columns of a table are, and the process
    after it has been asked. *)
Definition existing_columns_of (w : World) (conn : ptr) (s t : bytes)
  : list (str * Z) :=
  (monetdbe_get_columns lib (calls w) conn s t).1.

Definition asked_columns (w : World) (conn : ptr) (s t : bytes) : World :=
  add_calls w [c_get_columns conn s t
                 (monetdbe_get_columns lib (calls w) conn s t).1
                 (monetdbe_get_columns lib (calls w) conn s t).2].

(** Whether the record holds a bulk append. *)
Definition is_append (c : Call) : bool :=
  match c with c_append _ _ _ _ _ _ => true | _ => false end.

(** Column [column] of the table passes the checks of [append]: the batch
    has an array under its name, the dtype of the array maps to the
    declared type, and the name can be encoded. *)
Fixpoint find_item (data : list (str * column_values)) (column_name : str)
  : option column_values :=
  match data with
  | [] => None
  | (k, v) :: r => if bool_decide (k = column_name) then Some v
                   else find_item r column_name
  end.

Definition column_passes (data : list (str * column_values))
    (column : str * Z) : Prop :=
  exists values work_type_string name,
    find_item data column.1 = Some values
    /\ numpy_monetdb_map (cv_dtype values) = Ok (work_type_string, column.2)
    /\ utf8 column.1 = Some name.

(** The batch has an array for [column] whose dtype maps to an engine
    type other than the declared one. *)
Definition type_differs (data : list (str * column_values))
    (column : str * Z) : Prop :=
  exists values work_type_string work_type,
    find_item data column.1 = Some values
    /\ numpy_monetdb_map (cv_dtype values) = Ok (work_type_string, work_type)
    /\ work_type <> column.2.

(** The process after [result_fetch_numpy] has warned about a column. *)
Definition add_warning (w : World) (message : str) : World :=
  {| _active_context := _active_context w;
     in_memory_active := in_memory_active w;
     _connection := _connection w;
     calls := calls w; warnings := warnings w ++ [message] |}.


(** The mask [result_fetch_numpy] computes from an entry of the table. *)
Definition mask_of (entry : map_entry) (np_col : ndarray) : mask :=
  match monetdbe_null entry with
  | Some s => if (s =? 0)%Z then nomask else mask_array (elementwise_eq np_col s)
  | None => nomask
  end.


(** [m] never clears the in-memory flag. *)
Definition keeps_flag {A} (m : M A) : Prop :=
  forall w, in_memory_active w = true -> in_memory_active (m w).2 = true.



(** The column index of a fetch on the result at [result]. *)
Definition fetch_of (result : ptr) (c : Call) : option nat :=
  match c with
  | c_result_fetch r column _ => if (r =? result)%Z then Some column else None
  | _ => None
  end.

(** ** The timestamp converter of [monetdbe/dbapi2.py] *)

(** [convert_timestamp] is registered as converter for the column type
    "timestamp".  It works on [bytes] with builtins of the interpreter,
    which are taken as they are: [int] on bytes and on text,
    [bytes.decode] and the constructor of [datetime.datetime]. *)
Variable datetime_t : Type.
Variable int_of_bytes : bytes -> res Z.
Variable int_of_str : str -> res Z.
Variable decode : bytes -> res str.
Variable datetime_datetime : Z -> Z -> Z -> Z -> Z -> Z -> Z -> res datetime_t.

Definition rbind {A B} (r : res A) (k : A -> res B) : res B :=
  match r with
  | Ok a => k a
  | Raise e => Raise e
  end.

(** [val.split(sep)] for a separator of one byte: one piece more than there
    are separators, empty pieces included. *)
Fixpoint split (sep : Byte.byte) (val : bytes) : list bytes :=
  match val with
  | [] => [[]]
  | c :: r =>
      if Byte.eqb c sep then [] :: split sep r
      else match split sep r with
           | piece :: pieces => (c :: piece) :: pieces
           | [] => [[c]]
           end
  end.

Definition not_enough (expected got : Z) : exn :=
  ValueError (lit "not enough values to unpack (expected " ++ str_of_Z expected
                ++ lit ", got " ++ str_of_Z got ++ lit ")").

Definition too_many (expected : Z) : exn :=
  ValueError (lit "too many values to unpack (expected " ++ str_of_Z expected
                ++ lit ")").

(** [a, b = pieces] on a list *)
Definition unpack2 {A} (pieces : list A) : res (A * A) :=
  match pieces with
  | [a; b] => Ok (a, b)
  | [] => Raise (not_enough 2 0)
  | [_] => Raise (not_enough 2 1)
  | _ => Raise (too_many 2)
  end.

(** [a, b, c = map(f, pieces)]: the unpacking pulls the items of the lazy
    [map] one by one, so [f] runs on a piece before the count is known to
    be wrong, and on the fourth piece before "too many" is reported. *)
Definition unpack3_map {A B} (f : A -> res B) (pieces : list A) : res (B * B * B) :=
  match pieces with
  | [] => Raise (not_enough 3 0)
  | [a] => rbind (f a) (fun _ => Raise (not_enough 3 1))
  | [a; b] => rbind (f a) (fun _ => rbind (f b) (fun _ => Raise (not_enough 3 2)))
  | a :: b :: c :: rest =>
      rbind (f a) (fun x => rbind (f b) (fun y => rbind (f c) (fun z =>
        match rest with
        | [] => Ok (x, y, z)
        | d :: _ => rbind (f d) (fun _ => Raise (too_many 3))
        end)))
  end.

(** ['{:0<6.6}'.format(s)]: at most six characters of [s], then zeros up to
    a width of six. *)
Definition format_0_6 (s : str) : str :=
  take 6 s ++ replicate (6 - length (take 6 s)) 48%N.

Definition convert_timestamp (val : bytes) : res datetime_t :=
  rbind (unpack2 (split Byte.x20 val)) (fun '(datepart, timepart) =>
  rbind (unpack3_map int_of_bytes (split Byte.x2d datepart))
    (fun '(year, month, day) =>
  let timepart_full := split Byte.x2e timepart in
  rbind (unpack3_map int_of_bytes (split Byte.x3a (hd [] timepart_full)))
    (fun '(hours, minutes, seconds) =>
  rbind (if bool_decide (length timepart_full = 2%nat) then
           rbind (decode (nth 1 timepart_full []))
             (fun text => int_of_str (format_0_6 text))
         else Ok 0%Z)
    (fun microseconds =>
  datetime_datetime year month day hours minutes seconds microseconds)))).

(** The value of a text of decimal digits. *)
Definition digit (c : N) : bool := ((48 <=? c) && (c <=? 57))%N.

Definition decimal (s : str) : Z :=
  fold_left (fun acc c => (10 * acc + (Z.of_N c - 48))%Z) s 0%Z.

(** [sep.join(pieces)] on bytes, for a separator of one byte. *)
Fixpoint join_bytes (sep : Byte.byte) (pieces : list bytes) : bytes :=
  match pieces with
  | [] => []
  | [piece] => piece
  | piece :: rest => piece ++ sep :: join_bytes sep rest
  end.

(** ** Properties *)

(** Unfolding the monad. *)
Ltac run :=
  repeat (progress (cbv beta delta
            [bind_ ret raise gets lift encode connection_arg record_call
             set_connection set_active_context set_in_memory_active warn
             check_error] iota; simpl)).

Lemma add_calls_nil w : add_calls w [] = w.
Proof. destruct w; unfold add_calls; simpl. by rewrite app_nil_r. Qed.

Lemma add_calls_app w cs1 cs2 :
  add_calls (add_calls w cs1) cs2 = add_calls w (cs1 ++ cs2).
Proof. unfold add_calls; simpl. by rewrite app_assoc. Qed.

Lemma lib_open_run url opts w :
  lib_open url opts w =
  (Ok (monetdbe_open lib (calls w) url opts),
   add_calls w [c_open url opts (monetdbe_open lib (calls w) url opts).1
                  (monetdbe_open lib (calls w) url opts).2]).
Proof. unfold lib_open; run. by destruct (monetdbe_open _ _ _ _). Qed.

Lemma lib_close_run conn w :
  lib_close conn w =
  (Ok (monetdbe_close lib (calls w) conn),
   add_calls w [c_close conn (monetdbe_close lib (calls w) conn)]).
Proof. reflexivity. Qed.

Lemma lib_error_run conn w :
  lib_error conn w =
  (Ok (monetdbe_error lib (calls w) conn),
   add_calls w [c_error conn (monetdbe_error lib (calls w) conn)]).
Proof. reflexivity. Qed.

(** *** [open] *)

Lemma c_options_run (self : Internal) (w : World) :
  c_options self w =
  if options_fit self then (Ok (options_of self), w) else (Raise OverflowError, w).
Proof.
  unfold c_options, options_fit, options_of, c_int, bind_, ret, raise.
  destruct (fits_int (memorylimit self)); simpl; [|done].
  destruct (fits_int (querytimeout self)); simpl; [|done].
  destruct (fits_int (sessiontimeout self)); simpl; [|done].
  by destruct (fits_int (nr_threads self)).
Qed.

(** [open] up to the engine call, when the arguments can be built. *)
Lemma open_start (self : Internal) (w : World) (url : option bytes) :
  open_url self = Some url ->
  open self w =
  (p_options <- c_options self ;;
   opened <- lib_open url p_options ;;
   let '(connection, result_code) := opened in
   if negb (result_code =? 0)%Z then
     error <- (if (result_code =? -2)%Z then
                 error <- lib_error connection ;;
                 lib_close connection ;;
                 ret error
               else ret (errors_get result_code (lit "unknown error"))) ;;
     raise (OperationalError (open_message error result_code))
   else ret connection) w.
Proof.
  intros Hurl. unfold open, open_url in *. destruct (dbdir self) as [d|].
  - unfold bind_ at 1, encode. destruct (utf8 (resolve d)); simpl in Hurl; [|done].
    injection Hurl as <-. reflexivity.
  - injection Hurl as <-. reflexivity.
Qed.

(** The run of [open] after a non-zero code. *)
Lemma open_nonzero_run (self : Internal) (w : World)
    (url : option bytes) (conn : ptr) (code : Z) :
  open_url self = Some url ->
  options_fit self = true ->
  monetdbe_open lib (calls w) url (options_of self) = (conn, code) ->
  code <> 0%Z ->
  let opened := c_open url (options_of self) conn code in
  if (code =? -2)%Z then
    let text := monetdbe_error lib (calls w ++ [opened]) conn in
    let closed := monetdbe_close lib (calls w ++ [opened; c_error conn text]) conn in
    open self w =
    (Raise (OperationalError (open_message text code)),
     add_calls w [opened; c_error conn text; c_close conn closed])
  else
    open self w =
    (Raise (OperationalError
              (open_message (if (code =? -1)%Z then lit "Allocation failed"
                             else lit "unknown error") code)),
     add_calls w [opened]).
Proof.
  intros Hurl Hfit Hopen Hcode opened.
  assert (Hnz : (code =? 0)%Z = false) by (apply Z.eqb_neq; done).
  assert (Hrun : open self w =
            (error <- (if (code =? -2)%Z then
                         error <- lib_error conn ;; lib_close conn ;; ret error
                       else ret (errors_get code (lit "unknown error"))) ;;
             raise (OperationalError (open_message error code)))
              (add_calls w [opened])).
  { rewrite (open_start self w url Hurl). unfold bind_ at 1.
    rewrite c_options_run, Hfit. unfold bind_ at 1.
    rewrite lib_open_run, Hopen. simpl. by rewrite Hnz. }
  rewrite Hrun. clear Hrun.
  destruct (code =? -2)%Z eqn:H2; simpl.
  - unfold bind_. rewrite lib_error_run, lib_close_run. simpl.
    unfold raise. rewrite !add_calls_app. simpl.
    by rewrite <- (app_assoc (calls w)).
  - unfold bind_, ret, raise, errors_get. by rewrite Hnz, H2.
Qed.

(** C4.  When [open] gets as far as the engine (the path can be encoded
    and the options fit their C fields) and the engine answers with a
    non-zero code, [open] raises [OperationalError].  For code -2 the
    message is "Failed to open database: ", the engine's own error string
    and " (code -2)", and the connection the engine handed back is closed
    before the exception leaves [open]: the calls are [monetdbe_open],
    [monetdbe_error], [monetdbe_close], in this order.  For any other code
    the text is taken from the fixed table ("Allocation failed" for -1,
    "unknown error" otherwise) and the engine is not asked for its error
    string: the only call made is the [monetdbe_open] itself. *)
Theorem open_nonzero_code (self : Internal) (w : World)
    (url : option bytes) (conn : ptr) (code : Z) :
  open_url self = Some url ->
  options_fit self = true ->
  monetdbe_open lib (calls w) url (options_of self) = (conn, code) ->
  code <> 0%Z ->
  let opened := c_open url (options_of self) conn code in
  if (code =? -2)%Z then
    let text := monetdbe_error lib (calls w ++ [opened]) conn in
    let closed := monetdbe_close lib (calls w ++ [opened; c_error conn text]) conn in
    open self w =
    (Raise (OperationalError
              (lit "Failed to open database: " ++ text ++ lit " (code -2)")),
     add_calls w [opened; c_error conn text; c_close conn closed])
  else if (code =? -1)%Z then
    open self w =
    (Raise (OperationalError
              (lit "Failed to open database: Allocation failed (code -1)")),
     add_calls w [opened])
  else
    open self w =
    (Raise (OperationalError
              (lit "Failed to open database: unknown error (code "
                 ++ str_of_Z code ++ lit ")")),
     add_calls w [opened]).
Proof.
  intros Hurl Hfit Hopen Hcode opened.
  pose proof (open_nonzero_run self w url conn code Hurl Hfit Hopen Hcode) as H.
  simpl in H. fold opened in H.
  destruct (code =? -2)%Z eqn:H2.
  - apply Z.eqb_eq in H2. subst code. exact H.
  - destruct (code =? -1)%Z eqn:H1.
    + apply Z.eqb_eq in H1. subst code. exact H.
    + rewrite H. reflexivity.
Qed.

(** *** [close] *)

Lemma close_run (self : Internal) (w : World) :
  close self w =
  match _connection w with
  | Some c =>
      if (c =? 0)%Z then (Ok tt, closed self w)
      else
        let code := monetdbe_close lib (calls w) c in
        if (code =? 0)%Z then (Ok tt, closed self (add_calls w [c_close c code]))
        else (Raise (OperationalError (lit "Failed to close database")),
              add_calls w [c_close c code])
  | None => (Ok tt, closed self w)
  end.
Proof.
  unfold close, closed. destruct w as [act flag [c|] cs ws]; simpl.
  - destruct (c =? 0)%Z eqn:Hc; simpl.
    + run. rewrite Hc. simpl. destruct act, (dbdir self); reflexivity.
    + run. rewrite Hc. simpl. unfold lib_close. run.
      destruct (monetdbe_close lib cs c =? 0)%Z; simpl; [|reflexivity].
      destruct act, (dbdir self); reflexivity.
  - run. destruct act, (dbdir self); reflexivity.
Qed.

Lemma closed_falsy (self : Internal) (v : World) :
  truthy (_connection (closed self v)) = false.
Proof. unfold closed; simpl. by destruct (truthy (_connection v)) eqn:E. Qed.

Lemma closed_closed (self : Internal) (v : World) :
  closed self (closed self v) = closed self v.
Proof.
  unfold closed at 1. rewrite closed_falsy. unfold closed; simpl.
  by destruct (dbdir self).
Qed.

Lemma close_closed (self : Internal) (v : World) :
  close self (closed self v) = (Ok tt, closed self v).
Proof.
  rewrite close_run. pose proof (closed_falsy self v) as Hf.
  destruct (_connection (closed self v)) as [c|]; rewrite closed_closed; [|done].
  simpl in Hf. apply negb_false_iff in Hf. by rewrite Hf.
Qed.

(** What [close] leaves behind, by outcome. *)
Lemma close_sound (self : Internal) (w : World) :
  match close self w with
  | (Ok _, w') =>
      _active_context w' = None /\ truthy (_connection w') = false
      /\ (if dbdir self is None then in_memory_active w' = true
          else in_memory_active w' = in_memory_active w)
  | (Raise e, w') =>
      e = OperationalError (lit "Failed to close database")
      /\ _active_context w' = _active_context w
      /\ _connection w' = _connection w
      /\ in_memory_active w' = in_memory_active w
  end.
Proof.
  assert (Hok : forall v, in_memory_active v = in_memory_active w ->
            _active_context (closed self v) = None
            /\ truthy (_connection (closed self v)) = false
            /\ (if dbdir self is None then in_memory_active (closed self v) = true
                else in_memory_active (closed self v) = in_memory_active w)).
  { intros v Hv. repeat split.
    - apply closed_falsy.
    - unfold closed; simpl. by destruct (dbdir self). }
  rewrite close_run. destruct (_connection w) as [c|] eqn:Hconn.
  - destruct (c =? 0)%Z; [by apply Hok|].
    simpl. destruct (monetdbe_close lib (calls w) c =? 0)%Z; [by apply Hok|].
    by repeat split.
  - by apply Hok.
Qed.

(** C7, as the code has it.  [close] releases the native handle if one is
    held.  If the engine reports failure it raises [OperationalError] at
    once: the connection, the active-session marker and the in-memory flag
    stay as they were.  Otherwise the process is closed: no connection, no
    active session and, for an object without storage path, the in-memory
    flag set.  A [close] that returned is idempotent: closing again
    returns, calls nothing and changes nothing. *)
Theorem close_outcome (self : Internal) (w : World) :
  close self w =
  match _connection w with
  | Some c =>
      if (c =? 0)%Z then (Ok tt, closed self w)
      else
        let code := monetdbe_close lib (calls w) c in
        if (code =? 0)%Z then (Ok tt, closed self (add_calls w [c_close c code]))
        else (Raise (OperationalError (lit "Failed to close database")),
              add_calls w [c_close c code])
  | None => (Ok tt, closed self w)
  end
  /\ match close self w with
     | (Ok _, w') =>
         _active_context w' = None /\ truthy (_connection w') = false
         /\ (if dbdir self is None then in_memory_active w' = true
             else in_memory_active w' = in_memory_active w)
         /\ close self w' = (Ok tt, w')
     | (Raise e, w') =>
         e = OperationalError (lit "Failed to close database")
         /\ _active_context w' = _active_context w
         /\ _connection w' = _connection w
         /\ in_memory_active w' = in_memory_active w
     end.
Proof.
  split; [apply close_run|].
  assert (Hok : forall v, in_memory_active v = in_memory_active w ->
            _active_context (closed self v) = None
            /\ truthy (_connection (closed self v)) = false
            /\ (if dbdir self is None then in_memory_active (closed self v) = true
                else in_memory_active (closed self v) = in_memory_active w)
            /\ close self (closed self v) = (Ok tt, closed self v)).
  { intros v Hv. repeat split.
    - apply closed_falsy.
    - unfold closed; simpl. by destruct (dbdir self).
    - apply close_closed. }
  rewrite close_run. destruct (_connection w) as [c|] eqn:Hconn.
  - destruct (c =? 0)%Z; [by apply Hok|].
    simpl. destruct (monetdbe_close lib (calls w) c =? 0)%Z; [by apply Hok|].
    by repeat split.
  - by apply Hok.
Qed.

(** *** [cleanup_result] *)

(** C3, as the code has it.  On a null result pointer, or when the process
    holds no connection, [cleanup_result] returns without calling the
    engine.  With a result and a connection it releases the result, every
    time it is called, and raises when the engine reports an error. *)
Theorem cleanup_result_outcome (self : Internal) (result : option ptr) (w : World) :
  cleanup_result self result w =
  match result, _connection w with
  | Some r, Some c =>
      if negb (r =? 0)%Z && negb (c =? 0)%Z then
        let status := monetdbe_cleanup_result lib (calls w) c r in
        (if (status =? 0)%Z then Ok tt
         else Raise (OperationalError (error_text status)),
         add_calls w [c_cleanup_result c r status])
      else (Ok tt, w)
  | _, _ => (Ok tt, w)
  end.
Proof.
  unfold cleanup_result. run.
  destruct result as [r|], (_connection w) as [c|]; simpl; try reflexivity.
  - destruct (negb (r =? 0)%Z && negb (c =? 0)%Z); [|reflexivity].
    unfold lib_cleanup_result. run.
    by destruct (monetdbe_cleanup_result lib (calls w) c r =? 0)%Z.
  - by destruct (negb (r =? 0)%Z).
Qed.

(** *** [bind] *)

(** The run of [bind]: the text of the value, its encoding, the
    conversion of the index, the engine call. *)
Lemma bind_run (statement : ptr) (data : pyval) (parameter_nr : Z) (w : World) :
  bind statement data parameter_nr w =
  match py_str_of int_max_str_digits data with
  | Raise e => (Raise e, w)
  | Ok s =>
      match utf8 s with
      | None => (Raise UnicodeEncodeError, w)
      | Some text =>
          if fits_size_t parameter_nr then
            let status := monetdbe_bind lib (calls w) statement text parameter_nr in
            (if (status =? 0)%Z then Ok tt
             else Raise (OperationalError (error_text status)),
             add_calls w [c_bind statement text parameter_nr status])
          else (Raise OverflowError, w)
      end
  end.
Proof.
  unfold bind, c_size_t. run.
  destruct (py_str_of int_max_str_digits data) as [s|e]; [|reflexivity]. simpl.
  destruct (utf8 s) as [text|]; [|reflexivity]. simpl.
  destruct (fits_size_t parameter_nr); [|reflexivity]. simpl.
  unfold lib_bind. run.
  by destruct (monetdbe_bind lib (calls w) statement text parameter_nr =? 0)%Z.
Qed.

(** C10.  Whatever the type of [data], when [str(data)] is built and can
    be encoded and the parameter index fits a [size_t], [bind] hands the
    engine the UTF-8 encoding of [str(data)], once, and then checks the
    engine's status.  [str(data)] is the text "None", "True" or "False" for
    these values, the decimal text for an [int], the string itself for a
    [str] and what [__str__] returns for any other object: no value is
    bound in its own type. *)
Theorem bind_sends_text (statement : ptr) (data : pyval) (parameter_nr : Z)
    (w : World) (s : str) (text : bytes) :
  py_str_of int_max_str_digits data = Ok s ->
  utf8 s = Some text ->
  fits_size_t parameter_nr = true ->
  let status := monetdbe_bind lib (calls w) statement text parameter_nr in
  bind statement data parameter_nr w =
    (if (status =? 0)%Z then Ok tt
     else Raise (OperationalError (error_text status)),
     add_calls w [c_bind statement text parameter_nr status])
  /\ s = match data with
         | py_none => lit "None"
         | py_bool true => lit "True"
         | py_bool false => lit "False"
         | py_int z => lit (NilZero.string_of_int (Z.to_int z))
         | py_str t => t
         | py_other t => t
         end.
Proof.
  intros Hs Htext Hnr status. split.
  - rewrite bind_run, Hs, Htext, Hnr. reflexivity.
  - destruct data as [|[]|z|t|t]; simpl in Hs; try congruence.
    destruct ((0 <? int_max_str_digits) && (10 ^ int_max_str_digits <=? Z.abs z))%Z;
      [done|]. by injection Hs as <-.
Qed.

(** *** Operations that leave the session alone *)

Lemma steady_same {A} (w : World) (m : M A) :
  (m w).2 = w -> steady_at w m.
Proof.
  intros H. unfold steady_at. rewrite H. repeat split.
  exists []. by rewrite app_nil_r.
Qed.

Lemma steady_call {A} (w : World) (m : M A) (c : Call) :
  (m w).2 = add_calls w [c] -> on_connection (_connection w) c -> steady_at w m.
Proof.
  intros H Hc. unfold steady_at. rewrite H. repeat split.
  exists [c]. split; [done|]. by constructor.
Qed.

Lemma steady_bind {A B} (w : World) (m : M A) (k : A -> M B) :
  steady_at w m ->
  (forall a w', m w = (Ok a, w') -> steady_at w' (k a)) ->
  steady_at w (bind_ m k).
Proof.
  intros (Hc & Ha & cs & Hcs & Hall) Hk. unfold steady_at, bind_.
  destruct (m w) as [[a|e] w'] eqn:Hm; simpl in *.
  - destruct (Hk a w' eq_refl) as (Hc' & Ha' & cs' & Hcs' & Hall').
    split; [congruence|]. split; [congruence|].
    exists (cs ++ cs'). rewrite Hcs', Hcs, app_assoc. split; [done|].
    apply Forall_app. split; [done|]. by rewrite <- Hc.
  - repeat split; try done. by exists cs.
Qed.

Lemma steady_ret {A} (w : World) (a : A) : steady_at w (ret a).
Proof. by apply steady_same. Qed.

Lemma steady_raise {A} (w : World) (e : exn) : steady_at w (@raise A e).
Proof. by apply steady_same. Qed.

Lemma steady_gets {A} (w : World) (f : World -> A) : steady_at w (gets f).
Proof. by apply steady_same. Qed.

Lemma steady_lift {A} (w : World) (r : res A) : steady_at w (lift r).
Proof. apply steady_same. by destruct r. Qed.

Lemma steady_encode (w : World) (s : str) : steady_at w (encode s).
Proof. apply steady_same. unfold encode. by destruct (utf8 s). Qed.

Lemma steady_check_error (w : World) (status : Z) : steady_at w (check_error status).
Proof. apply steady_same. unfold check_error. by destruct (status =? 0)%Z. Qed.

Lemma steady_connection_arg (w : World) : steady_at w connection_arg.
Proof. apply steady_same. unfold connection_arg. run. by destruct (_connection w). Qed.

Lemma connection_arg_ok (w w' : World) (conn : ptr) :
  connection_arg w = (Ok conn, w') -> w' = w /\ _connection w = Some conn.
Proof.
  unfold connection_arg. run. destruct (_connection w); simpl; [|done].
  by intros [= -> ->].
Qed.

Lemma steady_lib_query (w : World) conn q make_result :
  _connection w = Some conn -> steady_at w (lib_query conn q make_result).
Proof.
  intros Hc.
  destruct (monetdbe_query lib (calls w) conn q make_result) as [[r a] st] eqn:E.
  apply (steady_call _ _ (c_query conn q make_result r a st)); [|done].
  unfold lib_query. run. by rewrite E.
Qed.

Lemma steady_lib_prepare (w : World) conn q :
  _connection w = Some conn -> steady_at w (lib_prepare conn q).
Proof.
  intros Hc.
  destruct (monetdbe_prepare lib (calls w) conn q) as [stmt st] eqn:E.
  apply (steady_call _ _ (c_prepare conn q stmt st)); [|done].
  unfold lib_prepare. run. by rewrite E.
Qed.

Lemma steady_lib_set_autocommit (w : World) conn value :
  _connection w = Some conn -> steady_at w (lib_set_autocommit conn value).
Proof. intros Hc. by eapply steady_call. Qed.

Lemma steady_lib_in_transaction (w : World) conn :
  _connection w = Some conn -> steady_at w (lib_in_transaction conn).
Proof. intros Hc. by eapply steady_call. Qed.

Lemma steady_lib_append (w : World) conn s t columns n :
  _connection w = Some conn -> steady_at w (lib_append conn s t columns n).
Proof. intros Hc. by eapply steady_call. Qed.

Lemma steady_lib_get_columns (w : World) conn s t :
  _connection w = Some conn -> steady_at w (lib_get_columns conn s t).
Proof.
  intros Hc.
  destruct (monetdbe_get_columns lib (calls w) conn s t) as [cols st] eqn:E.
  apply (steady_call _ _ (c_get_columns conn s t cols st)); [|done].
  unfold lib_get_columns. run. by rewrite E.
Qed.

Lemma steady_lib_cleanup_statement (w : World) conn statement :
  _connection w = Some conn -> steady_at w (lib_cleanup_statement conn statement).
Proof. intros Hc. by eapply steady_call. Qed.

Lemma steady_lib_cleanup_result (w : World) conn result :
  _connection w = Some conn -> steady_at w (lib_cleanup_result conn result).
Proof. intros Hc. by eapply steady_call. Qed.

Lemma steady_lib_bind (w : World) statement data parameter_nr :
  steady_at w (lib_bind statement data parameter_nr).
Proof. by eapply steady_call. Qed.

(** *** [_switch] *)

Lemma _switch_active (self : Internal) (w : World) :
  is_active self w = true -> _switch self w = (Ok tt, w).
Proof. intros H. unfold _switch. run. by rewrite H. Qed.

Lemma steady_switch (self : Internal) (w : World) :
  is_active self w = true -> steady_at w (_switch self).
Proof. intros H. apply steady_same. by rewrite _switch_active. Qed.

Lemma open_zero_code (self : Internal) (w : World)
    (url : option bytes) (conn : ptr) :
  open_url self = Some url ->
  options_fit self = true ->
  monetdbe_open lib (calls w) url (options_of self) = (conn, 0%Z) ->
  open self w = (Ok conn, add_calls w [c_open url (options_of self) conn 0]).
Proof.
  intros Hurl Hfit Hopen. rewrite (open_start self w url Hurl).
  unfold bind_ at 1. rewrite c_options_run, Hfit. unfold bind_ at 1.
  by rewrite lib_open_run, Hopen.
Qed.

Lemma open_unencodable (self : Internal) (w : World) :
  open_url self = None -> open self w = (Raise UnicodeEncodeError, w).
Proof.
  unfold open, open_url. destruct (dbdir self) as [d|]; [|done].
  unfold bind_ at 1, encode. unfold bind_ at 1.
  by destruct (utf8 (resolve d)).
Qed.

(** An option that does not fit stops [open] before the engine call. *)
Lemma open_overflow (self : Internal) (w : World) (url : option bytes) :
  open_url self = Some url ->
  options_fit self = false ->
  open self w = (Raise OverflowError, w).
Proof.
  intros Hurl Hfit. rewrite (open_start self w url Hurl).
  unfold bind_ at 1. by rewrite c_options_run, Hfit.
Qed.

(** What a run of [open] adds to the record: nothing when the arguments
    cannot be built, else one [monetdbe_open], and after code -2 the error
    text and the close of what was handed back. *)
Lemma open_cases (self : Internal) (w : World) :
  (exists e, open self w = (Raise e, w))
  \/ (exists url conn,
        open self w = (Ok conn, add_calls w [c_open url (options_of self) conn 0]))
  \/ (exists e url conn code,
        code <> 0%Z /\ code <> (-2)%Z
        /\ open self w = (Raise e, add_calls w [c_open url (options_of self) conn code]))
  \/ (exists e url conn text code',
        open self w =
        (Raise e, add_calls w [c_open url (options_of self) conn (-2);
                               c_error conn text; c_close conn code'])).
Proof.
  destruct (open_url self) as [url|] eqn:Hurl;
    [|left; eexists; by apply open_unencodable].
  destruct (options_fit self) eqn:Hfit;
    [|left; eexists; by apply (open_overflow self w url)].
  right. destruct (monetdbe_open lib (calls w) url (options_of self))
    as [conn code] eqn:Hopen.
  destruct (Z.eq_dec code 0%Z) as [->|Hnz].
  - left. exists url, conn. by apply open_zero_code.
  - right. pose proof (open_nonzero_run self w url conn code Hurl Hfit Hopen Hnz) as H.
    simpl in H. destruct (code =? -2)%Z eqn:H2.
    + right. apply Z.eqb_eq in H2. subst code. by repeat eexists.
    + left. apply Z.eqb_neq in H2. by repeat eexists.
Qed.

Lemma switch_run (self : Internal) (w : World) :
  is_active self w = false ->
  _switch self w =
  match close self w with
  | (Ok _, w1) =>
      match open self w1 with
      | (Ok conn, w2) => (Ok tt, installed self conn w2)
      | (Raise e, w2) => (Raise e, w2)
      end
  | (Raise e, w1) => (Raise e, w1)
  end.
Proof.
  intros H. unfold _switch. unfold bind_ at 1. unfold gets at 1. rewrite H.
  unfold bind_ at 1. destruct (close self w) as [[[]|e] w1]; [|done].
  unfold bind_ at 1. destruct (open self w1) as [[conn|e] w2]; [|done].
  unfold installed. run. by destruct (dbdir self).
Qed.

Lemma live_snoc (cs : list Call) (c : Call) :
  live (cs ++ [c]) = live_step (live cs) c.
Proof. unfold live. by rewrite fold_left_app. Qed.

Lemma live_app_steady (conn : option ptr) (cs cs' : list Call) :
  Forall (on_connection conn) cs' -> live (cs ++ cs') = live cs.
Proof.
  intros Hall. unfold live. rewrite fold_left_app.
  generalize (fold_left live_step cs []).
  induction Hall as [|c cs' Hc _ IH]; intros acc; [done|].
  simpl. rewrite IH. by destruct c.
Qed.

Lemma single_connection_steady {A} (w : World) (m : M A) :
  steady_at w m -> single_connection w -> single_connection (m w).2.
Proof.
  intros (Hc & Ha & cs & Hcs & Hall) [Hlive Hact]. split.
  - rewrite Hcs, (live_app_steady _ _ _ Hall), Hlive. unfold held. by rewrite Hc.
  - by rewrite Hc, Ha.
Qed.

Lemma single_connection_close (self : Internal) (w : World) :
  single_connection w ->
  single_connection (close self w).2
  /\ (forall w1, close self w = (Ok tt, w1) -> live (calls w1) = []
                                              /\ truthy (_connection w1) = false).
Proof.
  intros [Hlive Hact]. rewrite close_run.
  destruct w as [act flag [c|] cs ws];
    unfold single_connection, held, closed, add_calls in *; simpl in *.
  - destruct (c =? 0)%Z eqn:Hc; simpl.
    + rewrite ?Hc. split; [by split|]. intros w1 [= <-]. simpl. by rewrite ?Hc.
    + destruct (monetdbe_close lib cs c =? 0)%Z eqn:Hcode; simpl;
        rewrite ?Hc, ?live_snoc, ?Hlive; simpl; rewrite ?Hcode, ?Z.eqb_refl; simpl.
      * split; [by split|]. intros w1 [= <-]. simpl.
        rewrite live_snoc, Hlive. simpl. by rewrite Hcode, Z.eqb_refl.
      * split; [by split|]. done.
  - split; [by split|]. by intros w1 [= <-].
Qed.

Lemma held_add_calls (w : World) (cs : list Call) : held (add_calls w cs) = held w.
Proof. reflexivity. Qed.

Lemma single_connection_switch (self : Internal) (w : World) :
  single_connection w ->
  single_connection (_switch self w).2
  /\ (forall w', _switch self w = (Ok tt, w') -> is_active self w' = true).
Proof.
  intros Hinv. destruct (is_active self w) eqn:Hact.
  { rewrite _switch_active by done. split; [done|]. by intros w' [= <-]. }
  rewrite switch_run by done.
  destruct (single_connection_close self w Hinv) as [Hinv1 Hok].
  destruct (close self w) as [[[]|e] w1]; [|done].
  destruct (Hok w1 eq_refl) as [Hlive1 Hfalsy]. clear Hok. simpl in Hinv1.
  assert (Hheld1 : held w1 = []).
  { unfold held. destruct (_connection w1) as [c|]; [|done].
    simpl in Hfalsy. apply negb_false_iff in Hfalsy. by rewrite Hfalsy. }
  destruct (open_cases self w1)
    as [(e0 & H)|[(url & conn & H)|[(e & url & conn & code & Hnz & Hn2 & H)
                            |(e & url & conn & text & code' & H)]]];
    rewrite H; simpl.
  - done.
  - split.
    + split; simpl; [|done]. rewrite live_snoc, Hlive1. unfold held. simpl.
      by destruct (conn =? 0)%Z.
    + intros w' [= <-]. unfold is_active. simpl. by apply bool_decide_eq_true.
  - split; [|done]. destruct Hinv1 as [_ Ha]. split; simpl; [|done].
    rewrite live_snoc, Hlive1. simpl. rewrite held_add_calls, Hheld1.
    apply Z.eqb_neq in Hnz. by rewrite Hnz.
  - split; [|done]. destruct Hinv1 as [_ Ha]. split; simpl; [|done].
    rewrite held_add_calls, Hheld1.
    change [c_open url (options_of self) conn (-2); c_error conn text; c_close conn code']
      with ([c_open url (options_of self) conn (-2); c_error conn text] ++ [c_close conn code']).
    rewrite app_assoc, live_snoc.
    change [c_open url (options_of self) conn (-2); c_error conn text]
      with ([c_open url (options_of self) conn (-2)] ++ [c_error conn text]).
    rewrite app_assoc, !live_snoc, Hlive1. simpl. by destruct (code' =? 0)%Z.
Qed.

(** [_switch] itself only opens and closes. *)
Lemma switch_calls (self : Internal) (w : World) :
  exists cs, calls (_switch self w).2 = calls w ++ cs /\ Forall lifecycle cs.
Proof.
  destruct (is_active self w) eqn:Hact.
  { rewrite _switch_active by done. exists []. by rewrite app_nil_r. }
  rewrite switch_run by done.
  assert (Hclose : exists cs, calls (close self w).2 = calls w ++ cs
                              /\ Forall lifecycle cs).
  { rewrite close_run. destruct (_connection w) as [c|].
    - destruct (c =? 0)%Z; [exists []; by rewrite app_nil_r|]. simpl.
      destruct (monetdbe_close lib (calls w) c =? 0)%Z; simpl;
        eexists; (split; [done|]); by repeat constructor.
    - exists []. by rewrite app_nil_r. }
  destruct Hclose as (cs1 & Hcs1 & Hall1).
  destruct (close self w) as [[[]|e] w1]; simpl in *; [|by exists cs1].
  destruct (open_cases self w1)
    as [(e0 & H)|[(url & conn & H)|[(e & url & conn & code & Hnz & Hn2 & H)
                            |(e & url & conn & text & code' & H)]]];
    rewrite H; simpl; rewrite Hcs1.
  - by exists cs1.
  - eexists. rewrite <- app_assoc. split; [done|].
    apply Forall_app. split; [done|]. by repeat constructor.
  - eexists. rewrite <- app_assoc. split; [done|].
    apply Forall_app. split; [done|]. by repeat constructor.
  - eexists. rewrite <- app_assoc. split; [done|].
    apply Forall_app. split; [done|]. by repeat constructor.
Qed.

(** *** Code that only computes *)

Lemma stateless_ret {A} (a : A) : stateless (ret a).
Proof. done. Qed.

Lemma stateless_raise {A} (e : exn) : stateless (@raise A e).
Proof. done. Qed.

Lemma stateless_lift {A} (r : res A) : stateless (lift r).
Proof. intros w. by destruct r. Qed.

Lemma stateless_encode (s : str) : stateless (encode s).
Proof. intros w. unfold encode. by destruct (utf8 s). Qed.

Lemma stateless_c_size_t (z : Z) : stateless (c_size_t z).
Proof. intros w. unfold c_size_t. by destruct (fits_size_t z). Qed.

Lemma stateless_bind {A B} (m : M A) (k : A -> M B) :
  stateless m -> (forall a, stateless (k a)) -> stateless (bind_ m k).
Proof.
  intros Hm Hk w. unfold bind_. specialize (Hm w).
  destruct (m w) as [[a|e] w']; simpl in *; subst; [apply Hk|done].
Qed.

Lemma stateless_ok {A} (m : M A) (w w' : World) (a : A) :
  stateless m -> m w = (Ok a, w') -> w' = w.
Proof. intros Hm H. specialize (Hm w). by rewrite H in Hm. Qed.

Lemma stateless_monet_numpy_map_item (tag : Z) : stateless (monet_numpy_map_item tag).
Proof. intros w. unfold monet_numpy_map_item. by destruct (monet_numpy_map tag). Qed.

Lemma stateless_data_item data column_name : stateless (data_item data column_name).
Proof.
  induction data as [|[k v] r IH]; intros w; simpl; [done|].
  destruct (bool_decide (k = column_name)); [done|apply IH].
Qed.

Lemma stateless_unzip_columns existing_columns : stateless (unzip_columns existing_columns).
Proof. intros w. by destruct existing_columns. Qed.

Lemma stateless_array_set work_columns column_num wc :
  stateless (array_set work_columns column_num wc).
Proof. intros w. unfold array_set. by case_bool_decide. Qed.

Lemma stateless_append_column data work_columns column_num column :
  stateless (append_column data work_columns column_num column).
Proof.
  destruct column as [column_name existing_type]. unfold append_column.
  apply stateless_bind; [apply stateless_data_item|]. intros column_values.
  apply stateless_bind; [apply stateless_lift|]. intros [work_type_string work_type].
  destruct (negb (work_type =? existing_type)%Z).
  - apply stateless_bind; [apply stateless_monet_numpy_map_item|]. intros entry.
    apply stateless_raise.
  - apply stateless_bind; [apply stateless_encode|]. intros name.
    apply stateless_array_set.
Qed.

Lemma stateless_append_loop data existing_columns :
  forall work_columns column_num,
    stateless (append_loop data work_columns column_num existing_columns).
Proof.
  induction existing_columns as [|column rest IH]; intros work_columns column_num;
    simpl; [apply stateless_ret|].
  apply stateless_bind; [apply stateless_append_column|]. intros wc. apply IH.
Qed.

Lemma steady_stateless {A} (w : World) (m : M A) : stateless m -> steady_at w m.
Proof. intros H. apply steady_same, H. Qed.

Lemma steady_bind_stateless {A B} (w : World) (m : M A) (k : A -> M B) :
  stateless m -> (forall a, steady_at w (k a)) -> steady_at w (bind_ m k).
Proof.
  intros Hm Hk. apply steady_bind; [by apply steady_stateless|].
  intros a w' H. apply stateless_ok in H as ->; [apply Hk|done].
Qed.

Lemma steady_bind_switch {A} (self : Internal) (w : World) (k : M A) :
  is_active self w = true -> steady_at w k ->
  steady_at w (bind_ (_switch self) (fun _ => k)).
Proof.
  intros Hact Hk. apply steady_bind; [by apply steady_switch|].
  intros [] w' H. rewrite _switch_active in H by done. by injection H as <-.
Qed.

Lemma steady_bind_connection {A} (w : World) (k : ptr -> M A) :
  (forall conn, _connection w = Some conn -> steady_at w (k conn)) ->
  steady_at w (bind_ connection_arg k).
Proof.
  intros Hk. apply steady_bind; [apply steady_connection_arg|].
  intros conn w' H. apply connection_arg_ok in H as [-> Hc]. by apply Hk.
Qed.

(** *** The operations, run by the active session *)

Lemma steady_query (self : Internal) (w : World) q make_result :
  is_active self w = true -> steady_at w (query self q make_result).
Proof.
  intros Hact. unfold query. apply steady_bind_switch; [done|].
  apply steady_bind_stateless; [apply stateless_encode|]. intros q'.
  apply steady_bind_connection. intros conn Hc.
  apply steady_bind; [by apply steady_lib_query|]. intros [[r a] st] w' _.
  apply steady_bind; [apply steady_check_error|]. intros _ w'' _. apply steady_ret.
Qed.

Lemma steady_prepare (self : Internal) (w : World) q :
  is_active self w = true -> steady_at w (prepare self q).
Proof.
  intros Hact. unfold prepare. apply steady_bind_switch; [done|].
  apply steady_bind_stateless; [apply stateless_encode|]. intros q'.
  apply steady_bind_connection. intros conn Hc.
  apply steady_bind; [by apply steady_lib_prepare|]. intros [stmt st] w' _.
  apply steady_bind; [apply steady_check_error|]. intros _ w'' _. apply steady_ret.
Qed.

Lemma steady_set_autocommit (self : Internal) (w : World) value :
  is_active self w = true -> steady_at w (set_autocommit self value).
Proof.
  intros Hact. unfold set_autocommit. apply steady_bind_switch; [done|].
  apply steady_bind_connection. intros conn Hc.
  apply steady_bind; [by apply steady_lib_set_autocommit|]. intros st w' _.
  apply steady_check_error.
Qed.

Lemma steady_in_transaction (self : Internal) (w : World) :
  is_active self w = true -> steady_at w (in_transaction self).
Proof.
  intros Hact. unfold in_transaction. apply steady_bind_switch; [done|].
  apply steady_bind_connection. intros conn Hc.
  apply steady_bind; [by apply steady_lib_in_transaction|]. intros st w' _.
  apply steady_ret.
Qed.

Lemma steady_cleanup_statement (self : Internal) (w : World) statement :
  is_active self w = true -> steady_at w (cleanup_statement self statement).
Proof.
  intros Hact. unfold cleanup_statement. apply steady_bind_switch; [done|].
  apply steady_bind_connection. intros conn Hc.
  by apply steady_lib_cleanup_statement.
Qed.

Lemma steady_get_columns_enter (self : Internal) (w : World) table schema :
  is_active self w = true -> steady_at w (get_columns_enter self table schema).
Proof.
  intros Hact. unfold get_columns_enter. apply steady_bind_switch; [done|].
  apply steady_bind_stateless; [apply stateless_encode|]. intros s.
  apply steady_bind_stateless; [apply stateless_encode|]. intros t.
  apply steady_bind_connection. intros conn Hc.
  apply steady_bind; [by apply steady_lib_get_columns|]. intros [cols st] w' _.
  apply steady_ret.
Qed.

Lemma steady_append (self : Internal) (w : World) table data schema :
  is_active self w = true -> steady_at w (append self table data schema).
Proof.
  intros Hact. unfold append. apply steady_bind_switch; [done|].
  apply steady_bind; [by apply steady_get_columns_enter|].
  intros existing_columns w1 _.
  apply steady_bind_stateless; [apply stateless_unzip_columns|].
  intros [existing_names existing_types].
  destruct (negb (same_names existing_names (map fst data))); [apply steady_raise|].
  apply steady_bind_stateless; [apply stateless_append_loop|]. intros work_columns.
  apply steady_bind_stateless; [apply stateless_encode|]. intros s.
  apply steady_bind_stateless; [apply stateless_encode|]. intros t.
  apply steady_bind_connection. intros conn Hc.
  apply steady_bind; [by apply steady_lib_append|]. intros st w' _.
  apply steady_check_error.
Qed.

Lemma steady_perform (self : Internal) (w : World) (o : operation) :
  is_active self w = true -> steady_at w (perform self o).
Proof.
  intros Hact. destruct o; simpl.
  - apply steady_bind; [by apply steady_query|]. intros; apply steady_ret.
  - apply steady_bind; [by apply steady_prepare|]. intros; apply steady_ret.
  - by apply steady_append.
  - by apply steady_set_autocommit.
  - apply steady_bind; [by apply steady_in_transaction|]. intros; apply steady_ret.
  - apply steady_bind; [by apply steady_get_columns_enter|]. intros; apply steady_ret.
Qed.

(** *** Every operation switches first *)

Lemma switch_ok_active (self : Internal) (w w' : World) :
  _switch self w = (Ok tt, w') -> is_active self w' = true.
Proof.
  destruct (is_active self w) eqn:Hact.
  - rewrite _switch_active by done. by intros [= <-].
  - rewrite switch_run by done.
    destruct (close self w) as [[[]|e] w1]; [|done].
    destruct (open self w1) as [[conn|e] w2]; [|done].
    intros [= <-]. unfold is_active. simpl. by apply bool_decide_eq_true.
Qed.

Lemma switch_first_intro {A} (self : Internal) (k : M A) :
  switch_first self (bind_ (_switch self) (fun _ => k)).
Proof.
  intros w. unfold bind_.
  destruct (_switch self w) as [[[]|e] w1] eqn:Hs; [|done].
  by rewrite (_switch_active self w1 (switch_ok_active _ _ _ Hs)).
Qed.

Lemma switch_first_bind {A B} (self : Internal) (m : M A) (k : A -> M B) :
  switch_first self m -> switch_first self (bind_ m k).
Proof.
  intros H w. unfold bind_. rewrite (H w).
  by destruct (_switch self w) as [[[]|e] w1].
Qed.

Lemma switch_first_perform (self : Internal) (o : operation) :
  switch_first self (perform self o).
Proof.
  destruct o; simpl;
    repeat first [apply switch_first_intro | apply switch_first_bind].
Qed.

Lemma single_connection_switch_first {A} (self : Internal) (m : M A) (w : World) :
  switch_first self m ->
  (forall w1, is_active self w1 = true -> steady_at w1 m) ->
  single_connection w -> single_connection (m w).2.
Proof.
  intros Hfirst Hsteady Hinv. rewrite (Hfirst w).
  destruct (single_connection_switch self w Hinv) as [Hinv1 Hact].
  destruct (_switch self w) as [[[]|e] w1]; [|done].
  apply single_connection_steady; [|done]. by apply Hsteady, Hact.
Qed.

(** *** At most one native connection *)

Lemma single_connection_initial : single_connection initial_world.
Proof. by split. Qed.

Lemma single_connection_step (w : World) (a : api) :
  single_connection w -> single_connection (step w a).
Proof.
  intros Hinv. destruct a as [self|self|self|self o|g|self statement|self result
                             |statement data parameter_nr]; simpl.
  - by apply single_connection_switch.
  - unfold __del__. unfold bind_ at 1, gets at 1.
    destruct (is_active self w); [|done]. by apply single_connection_close.
  - by apply single_connection_close.
  - apply (single_connection_switch_first self);
      [apply switch_first_perform| |done].
    intros w1. apply steady_perform.
  - destruct g as [self table schema|rest|]; simpl.
    + assert (H : single_connection (get_columns_enter self table schema w).2).
      { apply (single_connection_switch_first self);
          [apply switch_first_intro| |done].
        intros w1. apply steady_get_columns_enter. }
      by destruct (get_columns_enter self table schema w) as [[rows|e] w'];
        [destruct rows|].
    + done.
    + done.
  - apply (single_connection_switch_first self);
      [apply switch_first_intro| |done].
    intros w1. apply steady_cleanup_statement.
  - apply single_connection_steady; [|done]. unfold cleanup_result.
    apply steady_bind; [apply steady_gets|]. intros conn w' [= <- <-].
    destruct (truthy result && truthy (_connection w)); [|apply steady_ret].
    destruct result as [r|], (_connection w) as [c|] eqn:Hc; try apply steady_ret.
    apply steady_bind; [by apply steady_lib_cleanup_result|]. intros st w' _.
    apply steady_check_error.
  - apply single_connection_steady; [|done]. unfold bind.
    apply steady_bind_stateless; [apply stateless_lift|]. intros s.
    apply steady_bind_stateless; [apply stateless_encode|]. intros text.
    apply steady_bind_stateless; [apply stateless_c_size_t|]. intros nr.
    apply steady_bind; [apply steady_lib_bind|]. intros st w' _.
    apply steady_check_error.
Qed.

Lemma single_connection_after (history : list api) : single_connection (after history).
Proof.
  unfold after. generalize single_connection_initial. generalize initial_world.
  induction history as [|a history IH]; intros w Hinv; simpl; [done|].
  by apply IH, single_connection_step.
Qed.

Lemma held_at_most_one (w : World) : (length (held w) <= 1)%nat.
Proof. unfold held. destruct (_connection w) as [c|]; [|simpl; lia].
  destruct (c =? 0)%Z; simpl; lia. Qed.

(** C1.  At every point of a run of the process, whatever the sequence
    of API calls, at most one native connection is open and it is the one
    the process holds.  [_switch] does nothing when [self] is the active
    session; otherwise it closes what is open and opens [self], only
    opening and closing on the way, and when it returns [self] is active.
    Each of [query], [prepare], [append], [set_autocommit],
    [in_transaction] and [get_columns] switches first: if the switch
    raises, the operation raises the same without any further engine call,
    and otherwise it runs with [self] active, every engine call it makes
    going to the connection of the process, none of them an open or a
    close. *)
Theorem switch_discipline (history : list api) (self : Internal) (o : operation) :
  let w := after history in
  (live (calls w) = held w /\ (length (live (calls w)) <= 1)%nat)
  /\ (if is_active self w then _switch self w = (Ok tt, w)
      else _switch self w =
           match close self w with
           | (Ok _, w1) =>
               match open self w1 with
               | (Ok conn, w2) => (Ok tt, installed self conn w2)
               | (Raise e, w2) => (Raise e, w2)
               end
           | (Raise e, w1) => (Raise e, w1)
           end)
  /\ (exists cs, calls (_switch self w).2 = calls w ++ cs /\ Forall lifecycle cs)
  /\ match _switch self w with
     | (Ok _, w1) =>
         is_active self w1 = true
         /\ perform self o w = perform self o w1
         /\ exists cs, calls (perform self o w).2 = calls w1 ++ cs
                       /\ Forall (on_connection (_connection w1)) cs
     | (Raise e, w1) => perform self o w = (Raise e, w1)
     end.
Proof.
  intros w. pose proof (single_connection_after history) as [Hlive Hact].
  fold w in Hlive, Hact. split; [|split; [|split]].
  - split; [done|]. rewrite Hlive. apply held_at_most_one.
  - destruct (is_active self w) eqn:H; [by apply _switch_active|by apply switch_run].
  - apply switch_calls.
  - pose proof (switch_first_perform self o w) as Hfirst.
    destruct (_switch self w) as [[[]|e] w1] eqn:Hs; [|done].
    pose proof (switch_ok_active _ _ _ Hs) as Hact1.
    split; [done|]. split; [done|]. rewrite Hfirst.
    by destruct (steady_perform self w1 o Hact1) as (_ & _ & Hcs).
Qed.

(** *** [get_columns] *)

Lemma lib_get_columns_run conn s t w :
  lib_get_columns conn s t w =
  (Ok (monetdbe_get_columns lib (calls w) conn s t),
   add_calls w [c_get_columns conn s t
                  (monetdbe_get_columns lib (calls w) conn s t).1
                  (monetdbe_get_columns lib (calls w) conn s t).2]).
Proof.
  unfold lib_get_columns. run.
  by destruct (monetdbe_get_columns lib (calls w) conn s t).
Qed.

(** The body of [get_columns] run by the active session: the status the
    engine returns is dropped, whatever it is. *)
Lemma get_columns_enter_active (self : Internal) (table schema : str) (w : World)
    (conn : ptr) (s t : bytes) :
  is_active self w = true ->
  _connection w = Some conn ->
  utf8 schema = Some s ->
  utf8 table = Some t ->
  get_columns_enter self table schema w =
  (Ok (monetdbe_get_columns lib (calls w) conn s t).1,
   add_calls w [c_get_columns conn s t
                  (monetdbe_get_columns lib (calls w) conn s t).1
                  (monetdbe_get_columns lib (calls w) conn s t).2]).
Proof.
  intros Hact Hconn Hs Ht. unfold get_columns_enter.
  unfold bind_ at 1. rewrite _switch_active by done.
  unfold bind_ at 1, encode. rewrite Hs. unfold ret at 1.
  unfold bind_ at 1. rewrite Ht. unfold ret at 1.
  unfold bind_ at 1, connection_arg. unfold bind_ at 1, gets. rewrite Hconn.
  unfold ret at 1. unfold bind_. by rewrite lib_get_columns_run.
Qed.

(** Creating the generator runs nothing; a suspended generator yields its
    rows one by one without calling the engine; once finished it stays
    finished. *)
Lemma next_suspended (row : str * Z) (rest : list (str * Z)) (w : World) :
  next_ (gen_suspended (row :: rest)) w = (Ok row, gen_suspended rest, w).
Proof. reflexivity. Qed.

Lemma next_exhausted (w : World) :
  next_ (gen_suspended []) w = (Raise StopIteration, gen_finished, w).
Proof. reflexivity. Qed.

Lemma next_finished (w : World) :
  next_ gen_finished w = (Raise StopIteration, gen_finished, w).
Proof. reflexivity. Qed.

Lemma iterate_S (fuel : nat) (g : generator) (acc : list (str * Z)) (w : World) :
  iterate (S fuel) g acc w =
  match next_ g w with
  | (Ok row, g', w') => iterate fuel g' (acc ++ [row]) w'
  | (Raise StopIteration, g', w') => Some (Ok acc, g', w')
  | (Raise e, g', w') => Some (Raise e, g', w')
  end.
Proof. reflexivity. Qed.

Lemma iterate_suspended (rest acc : list (str * Z)) (w : World) (extra : nat) :
  iterate (S (length rest) + extra) (gen_suspended rest) acc w
  = Some (Ok (acc ++ rest), gen_finished, w).
Proof.
  revert acc. induction rest as [|row rest IH]; intros acc.
  - change (S (length []) + extra)%nat with (S extra).
    rewrite iterate_S, next_exhausted. by rewrite app_nil_r.
  - change (S (length (row :: rest)) + extra)%nat
      with (S (S (length rest) + extra)).
    rewrite iterate_S, next_suspended, IH. by rewrite <- app_assoc.
Qed.

(** Consuming the generator with [next] until [StopIteration] collects
    what [list_] returns, in a number of steps bounded by the number of
    rows, and leaves the generator finished. *)
Lemma iterate_list (g : generator) (w : World) :
  match list_ g w with
  | (Ok rows, w') =>
      iterate (2 + length rows) g [] w = Some (Ok rows, gen_finished, w')
  | (Raise StopIteration, w') => True
  | (Raise e, w') => iterate 1 g [] w = Some (Raise e, gen_finished, w')
  end.
Proof.
  destruct g as [self table schema|rest|].
  - change (list_ (gen_created self table schema) w)
      with (get_columns_enter self table schema w).
    destruct (get_columns_enter self table schema w) as [[rows|e] w'] eqn:Hg.
    + change (2 + length rows)%nat with (S (S (length rows))).
      rewrite iterate_S. cbn [next_]. rewrite Hg.
      destruct rows as [|row rows]; [done|]. cbn [resume].
      pose proof (iterate_suspended rows ([] ++ [row]) w' 1) as H.
      rewrite Nat.add_1_r in H. exact H.
    + destruct e; try done; rewrite iterate_S; cbn [next_]; by rewrite Hg.
  - change (list_ (gen_suspended rest) w) with (Ok rest, w).
    pose proof (iterate_suspended rest [] w 1) as H.
    by rewrite Nat.add_1_r in H.
  - done.
Qed.

(** X1.  The generator of [get_columns], consumed by the active session
    with [next] until [StopIteration], yields exactly the rows the engine
    reported, in the engine's order, and is then finished.  The engine is
    asked once, at the first [next]: the record grows by that one
    [monetdbe_get_columns] call; every later [next] yields from what the
    generator kept and leaves the process as it is, and a finished
    generator only raises [StopIteration]. *)
Theorem get_columns_consumed (self : Internal) (table schema : str) (w : World)
    (conn : ptr) (s t : bytes) :
  is_active self w = true ->
  _connection w = Some conn ->
  utf8 schema = Some s ->
  utf8 table = Some t ->
  let rows := (monetdbe_get_columns lib (calls w) conn s t).1 in
  let status := (monetdbe_get_columns lib (calls w) conn s t).2 in
  let w' := add_calls w [c_get_columns conn s t rows status] in
  iterate (2 + length rows) (get_columns self table schema) [] w
    = Some (Ok rows, gen_finished, w')
  /\ next_ (get_columns self table schema) w
     = (match rows with
        | row :: rest => (Ok row, gen_suspended rest)
        | [] => (Raise StopIteration, gen_finished)
        end, w')
  /\ (forall row rest v,
        next_ (gen_suspended (row :: rest)) v = (Ok row, gen_suspended rest, v))
  /\ (forall v, next_ (gen_suspended []) v = (Raise StopIteration, gen_finished, v))
  /\ (forall v, next_ gen_finished v = (Raise StopIteration, gen_finished, v)).
Proof.
  intros Hact Hconn Hs Ht rows status w'.
  pose proof (get_columns_enter_active self table schema w conn s t
                Hact Hconn Hs Ht) as Hg.
  fold rows status w' in Hg.
  split; [|split; [|by repeat split]].
  - pose proof (iterate_list (get_columns self table schema) w) as H.
    change (list_ (get_columns self table schema) w)
      with (get_columns_enter self table schema w) in H.
    by rewrite Hg in H.
  - unfold get_columns. cbn [next_]. by rewrite Hg.
Qed.

(** *** [append] *)

Lemma append_asks (self : Internal) (table : str)
    (data : list (str * column_values)) (schema : str) (w : World)
    (conn : ptr) (s t : bytes) :
  is_active self w = true ->
  _connection w = Some conn ->
  utf8 schema = Some s ->
  utf8 table = Some t ->
  append self table data schema w =
  (unzipped <- unzip_columns (existing_columns_of w conn s t) ;;
   let '(existing_names, existing_types) := unzipped in
   if negb (same_names existing_names (map fst data)) then
     raise (ProgrammingError (names_message (map fst data) existing_names))
   else
     work_columns <- append_loop data (replicate (length data) None) 0
                       (existing_columns_of w conn s t) ;;
     s <- encode schema ;;
     t <- encode table ;;
     conn <- connection_arg ;;
     status <- lib_append conn s t work_columns (length data) ;;
     check_error status) (asked_columns w conn s t).
Proof.
  intros Hact Hconn Hs Ht. unfold append.
  unfold bind_ at 1. rewrite _switch_active by done.
  unfold bind_ at 1.
  change (list_ (get_columns self table schema) w)
    with (get_columns_enter self table schema w).
  by rewrite (get_columns_enter_active self table schema w conn s t).
Qed.

(** With no existing column the unpacking fails before any comparison. *)
Lemma append_no_columns (self : Internal) (table : str)
    (data : list (str * column_values)) (schema : str) (w : World)
    (conn : ptr) (s t : bytes) :
  is_active self w = true ->
  _connection w = Some conn ->
  utf8 schema = Some s ->
  utf8 table = Some t ->
  existing_columns_of w conn s t = [] ->
  append self table data schema w =
  (Raise (ValueError (lit "not enough values to unpack (expected 2, got 0)")),
   asked_columns w conn s t).
Proof.
  intros Hact Hconn Hs Ht Hnone.
  rewrite (append_asks self table data schema w conn s t) by done.
  by rewrite Hnone.
Qed.

(** X2.  With at least one existing column, a batch whose names are not the
    names of the table is refused with a [ProgrammingError] whose message
    lists the names of the batch and then the names of the table, each
    list joined with ", "; the only engine call made is the one that asked
    for the columns. *)
Lemma append_names_differ (self : Internal) (table : str)
    (data : list (str * column_values)) (schema : str) (w : World)
    (conn : ptr) (s t : bytes) :
  is_active self w = true ->
  _connection w = Some conn ->
  utf8 schema = Some s ->
  utf8 table = Some t ->
  existing_columns_of w conn s t <> [] ->
  list_to_set (map fst (existing_columns_of w conn s t))
    <> (list_to_set (map fst data) : gset str) ->
  append self table data schema w =
  (Raise (ProgrammingError
            (lit "Appended column names ("
               ++ join (lit ", ") (map fst data)
               ++ lit ") don't match existing column names ("
               ++ join (lit ", ") (map fst (existing_columns_of w conn s t))
               ++ lit ")")),
   add_calls w [c_get_columns conn s t
                  (monetdbe_get_columns lib (calls w) conn s t).1
                  (monetdbe_get_columns lib (calls w) conn s t).2]).
Proof.
  intros Hact Hconn Hs Ht Hsome Hdiff.
  rewrite (append_asks self table data schema w conn s t) by done.
  destruct (existing_columns_of w conn s t) as [|column rest] eqn:Hcols; [done|].
  unfold bind_ at 1. cbn [unzip_columns ret].
  unfold same_names. by rewrite bool_decide_eq_false_2.
Qed.

Lemma data_item_find data column_name (w : World) :
  data_item data column_name w =
  (match find_item data column_name with
   | Some values => Ok values
   | None => Raise KeyError
   end, w).
Proof.
  induction data as [|[k v] r IH]; simpl; [done|].
  by destruct (bool_decide (k = column_name)).
Qed.

Lemma find_item_In data column_name values :
  find_item data column_name = Some values -> In column_name (map fst data).
Proof.
  induction data as [|[k v] r IH]; simpl; [done|].
  case_bool_decide; [by left|]. intros Hf. right. by apply IH.
Qed.

Lemma append_column_passes data work_columns column_num column (w : World) :
  column_passes data column ->
  (column_num < length work_columns)%nat ->
  exists work_columns',
    append_column data work_columns column_num column w = (Ok work_columns', w)
    /\ length work_columns' = length work_columns.
Proof.
  intros (values & ws & name & Hfind & Hmap & Hname) Hlt.
  destruct column as [column_name existing_type]. simpl in *.
  unfold append_column. unfold bind_ at 1. rewrite data_item_find, Hfind.
  unfold bind_ at 1. rewrite Hmap. cbn [lift ret]. rewrite Z.eqb_refl.
  cbn [negb]. unfold bind_, encode. rewrite Hname. cbn [ret].
  unfold array_set. rewrite bool_decide_eq_true_2 by done.
  eexists. split; [done|]. by rewrite length_insert.
Qed.

Lemma append_loop_passes data pre :
  forall work_columns column_num (w : World),
    Forall (column_passes data) pre ->
    (column_num + length pre <= length work_columns)%nat ->
    exists work_columns',
      append_loop data work_columns column_num pre w = (Ok work_columns', w)
      /\ length work_columns' = length work_columns.
Proof.
  induction pre as [|column pre IH]; intros work_columns column_num w Hall Hlen.
  - by exists work_columns.
  - inversion Hall as [|? ? Hc Hrest]; subst. simpl in Hlen.
    destruct (append_column_passes data work_columns column_num column w Hc)
      as (wc1 & H1 & Hl1); [lia|].
    destruct (IH wc1 (S column_num) w Hrest) as (wc2 & H2 & Hl2); [lia|].
    exists wc2. cbn [append_loop]. unfold bind_. rewrite H1, H2.
    split; [done|]. congruence.
Qed.

Lemma append_loop_app data pre post :
  forall work_columns column_num (w : World),
    append_loop data work_columns column_num (pre ++ post) w =
    match append_loop data work_columns column_num pre w with
    | (Ok work_columns', w') =>
        append_loop data work_columns' (column_num + length pre) post w'
    | (Raise e, w') => (Raise e, w')
    end.
Proof.
  induction pre as [|column pre IH]; intros work_columns column_num w.
  - simpl. by rewrite Nat.add_0_r.
  - cbn [app append_loop]. unfold bind_.
    destruct (append_column data work_columns column_num column w)
      as [[wc1|e] w1]; [|done].
    rewrite IH. simpl length. by rewrite Nat.add_succ_r.
Qed.

(** The first column, in the order the engine declares them, whose array
    maps to another type than the declared one stops [append]: with a
    [ProgrammingError] that names both types when the table has the
    declared type, with the [KeyError] of the look-up when it has not. *)
Lemma append_loop_type_differs data pre post column_name existing_type
    values work_type_string work_type (w : World) :
  Forall (column_passes data) pre ->
  (length pre <= length data)%nat ->
  find_item data column_name = Some values ->
  numpy_monetdb_map (cv_dtype values) = Ok (work_type_string, work_type) ->
  work_type <> existing_type ->
  append_loop data (replicate (length data) None) 0
    (pre ++ (column_name, existing_type) :: post) w =
  (match monet_numpy_map existing_type with
   | Some entry =>
       Raise (ProgrammingError
                (type_message work_type_string column_name (cast_string entry)))
   | None => Raise KeyError
   end, w).
Proof.
  intros Hpre Hlen Hfind Hmap Hdiff. rewrite append_loop_app.
  destruct (append_loop_passes data pre (replicate (length data) None) 0 w Hpre)
    as (wc & Hrun & _); [by rewrite length_replicate|].
  rewrite Hrun. cbn [append_loop]. unfold bind_ at 1.
  unfold append_column. unfold bind_ at 1. rewrite data_item_find, Hfind.
  unfold bind_ at 1. rewrite Hmap. cbn [lift ret].
  apply Z.eqb_neq in Hdiff. rewrite Hdiff. cbn [negb].
  unfold bind_, monet_numpy_map_item.
  by destruct (monet_numpy_map existing_type).
Qed.

Lemma find_item_Some data column_name :
  column_name ∈ map fst data -> exists values, find_item data column_name = Some values.
Proof.
  induction data as [|[k v] r IH]; simpl; [by intros ?%elem_of_nil|].
  intros Hin. case_bool_decide as Hk; [by eexists|].
  apply elem_of_cons in Hin as [->|Hin]; [done|by apply IH].
Qed.

(** Among columns that all have an array of a known dtype and a name that
    can be encoded, the first one whose type differs is preceded by
    columns that pass. *)
Lemma first_type_differs data columns :
  Forall (fun column =>
            exists values, find_item data column.1 = Some values
                           /\ is_ok (numpy_monetdb_map (cv_dtype values)) = true)
         columns ->
  Forall (fun column => is_Some (utf8 column.1)) columns ->
  Exists (type_differs data) columns ->
  exists pre column post,
    columns = pre ++ column :: post
    /\ Forall (column_passes data) pre
    /\ type_differs data column.
Proof.
  induction columns as [|c0 columns IH]; intros Hknown Hnames Hex;
    [by apply Exists_nil in Hex|].
  inversion Hknown as [|? ? (values & Hfind & Hok) Hknown']; subst.
  inversion Hnames as [|? ? [name Hname] Hnames']; subst.
  destruct (numpy_monetdb_map (cv_dtype values)) as [[ws wt]|e] eqn:Hmap; [|done].
  destruct (Z.eq_dec wt c0.2) as [Heq|Hne].
  - assert (Hpass : column_passes data c0).
    { exists values, ws, name. by rewrite Hmap, Heq. }
    apply Exists_cons in Hex as [(v & ws' & wt' & Hf & Hm & Hd)|Hex].
    { rewrite Hfind in Hf. injection Hf as <-. rewrite Hmap in Hm.
      injection Hm as <- <-. done. }
    destruct (IH Hknown' Hnames' Hex) as (pre & column & post & -> & Hpre & Hd).
    exists (c0 :: pre), column, post. by repeat split; [constructor|].
  - exists [], c0, columns. repeat split; [constructor|].
    by exists values, ws, wt.
Qed.

(** C6.  The columns are checked in the order the engine declares them.
    Let the batch have the names of the table, every array a dtype that
    [numpy_monetdb_map] knows, and let some column's array map to an engine
    type other than the declared one.  Then [append] stops at the first
    such column, all columns before it having passed, and the only engine
    call made is the one that asked for the columns: no bulk append is
    issued.  What it raises there is the [ProgrammingError] "Type '..' for
    appended column '..' does not match table type '..'", naming the
    provided and the existing type string, when the declared type is a key
    of [monet_numpy_map]; when it is not, the look-up of the existing type
    string raises [KeyError] and no [ProgrammingError] is built. *)
Theorem append_type_differs (self : Internal) (table : str)
    (data : list (str * column_values)) (schema : str) (w : World)
    (conn : ptr) (s t : bytes) :
  is_active self w = true ->
  _connection w = Some conn ->
  utf8 schema = Some s ->
  utf8 table = Some t ->
  NoDup (map fst (existing_columns_of w conn s t)) ->
  list_to_set (map fst (existing_columns_of w conn s t))
    = (list_to_set (map fst data) : gset str) ->
  Forall (fun item => is_ok (numpy_monetdb_map (cv_dtype item.2)) = true) data ->
  Forall (fun column => is_Some (utf8 column.1)) (existing_columns_of w conn s t) ->
  Exists (type_differs data) (existing_columns_of w conn s t) ->
  exists pre column post values work_type_string work_type,
    existing_columns_of w conn s t = pre ++ column :: post
    /\ Forall (column_passes data) pre
    /\ find_item data column.1 = Some values
    /\ numpy_monetdb_map (cv_dtype values) = Ok (work_type_string, work_type)
    /\ work_type <> column.2
    /\ append self table data schema w =
       (match monet_numpy_map column.2 with
        | Some entry =>
            Raise (ProgrammingError
                     (lit "Type '" ++ work_type_string
                        ++ lit "' for appended column '" ++ column.1
                        ++ lit "' does not match table type '"
                        ++ cast_string entry ++ lit "'"))
        | None => Raise KeyError
        end,
        add_calls w [c_get_columns conn s t
                       (monetdbe_get_columns lib (calls w) conn s t).1
                       (monetdbe_get_columns lib (calls w) conn s t).2])
    /\ existsb is_append (calls (append self table data schema w).2)
       = existsb is_append (calls w).
Proof.
  intros Hact Hconn Hs Ht Hnodup Hsame Hknown Hnames Hex.
  assert (Hall : Forall (fun column =>
                   exists values, find_item data column.1 = Some values
                     /\ is_ok (numpy_monetdb_map (cv_dtype values)) = true)
                   (existing_columns_of w conn s t)).
  { apply Forall_forall. intros column Hin.
    assert (Hname : column.1 ∈ map fst data).
    { apply (elem_of_list_to_set (C:=gset str)). rewrite <- Hsame.
      apply elem_of_list_to_set. by apply (list_elem_of_fmap_2 fst). }
    destruct (find_item_Some data column.1 Hname) as (values & Hfind).
    exists values. split; [done|].
    rewrite Forall_forall in Hknown.
    assert (Hitem : (column.1, values) ∈ data).
    { clear -Hfind. induction data as [|[k v] r IH]; simpl in *; [done|].
      case_bool_decide as Hk.
      - injection Hfind as ->. subst k. by left.
      - right. by apply IH. }
    by apply (Hknown _ Hitem). }
  destruct (first_type_differs data _ Hall Hnames Hex)
    as (pre & [column_name existing_type] & post & Hcols & Hpre
        & values & ws & wt & Hfind & Hmap & Hdiff).
  simpl in Hfind, Hmap, Hdiff.
  exists pre, (column_name, existing_type), post, values, ws, wt.
  do 5 (split; [done|]).
  assert (Hrun : append self table data schema w =
       (match monet_numpy_map existing_type with
        | Some entry =>
            Raise (ProgrammingError (type_message ws column_name (cast_string entry)))
        | None => Raise KeyError
        end, asked_columns w conn s t)).
  { rewrite (append_asks self table data schema w conn s t) by done.
    assert (Hlen : (length pre <= length data)%nat).
    { rewrite <- (length_map fst data), <- (length_map fst pre).
      apply submseteq_length, NoDup_submseteq.
      - rewrite Hcols, map_app in Hnodup. by apply NoDup_app in Hnodup as [? _].
      - intros x Hx. apply list_elem_of_In, in_map_iff in Hx as ([n ty] & <- & Hin).
        rewrite Forall_forall in Hpre.
        assert (Hp : column_passes data (n, ty)).
        { apply Hpre. by apply list_elem_of_In. }
        destruct Hp as (v & _ & _ & Hf & _).
        by apply list_elem_of_In, (find_item_In _ _ v). }
    rewrite Hcols in *.
    destruct (pre ++ (column_name, existing_type) :: post) as [|c0 r0] eqn:E;
      [by destruct pre|].
    unfold bind_ at 1. cbn [unzip_columns ret].
    unfold same_names. rewrite bool_decide_eq_true_2 by done. cbn [negb].
    unfold bind_ at 1. rewrite <- E.
    rewrite (append_loop_type_differs data pre post column_name existing_type
               values ws wt) by done.
    by destruct (monet_numpy_map existing_type). }
  rewrite Hrun. split.
  - cbn [fst snd]. by destruct (monet_numpy_map existing_type).
  - unfold asked_columns, add_calls. simpl. rewrite existsb_app. simpl.
    by rewrite !orb_false_r.
Qed.

(** *** [result_fetch_numpy] *)

Lemma lib_result_fetch_run result column w :
  lib_result_fetch result column w =
  (Ok (monetdbe_result_fetch lib (calls w) result column),
   add_calls w [c_result_fetch result column
                  (monetdbe_result_fetch lib (calls w) result column).2]).
Proof.
  unfold lib_result_fetch. run.
  by destruct (monetdbe_result_fetch lib (calls w) result column).
Qed.

Lemma result_fetch_ok (result : monetdbe_result) (c : nat) (w : World)
    (rcol : monetdbe_column) :
  monetdbe_result_fetch lib (calls w) (result_ptr result) c = (rcol, 0%Z) ->
  result_fetch result c w =
  (Ok rcol, add_calls w [c_result_fetch (result_ptr result) c 0]).
Proof.
  intros H. unfold result_fetch, bind_. by rewrite lib_result_fetch_run, H.
Qed.





Lemma extract_rows_ok (rcol : monetdbe_column) (n : nat) :
  forall from (w : World),
    (forall r, (from <= r < from + n)%nat -> is_ok (extract rcol r) = true) ->
    exists items,
      extract_rows rcol from n w = (Ok items, w)
      /\ length items = n
      /\ forall i v, items !! i = Some v -> extract rcol (from + i) = Ok v.
Proof.
  induction n as [|n IH]; intros from w Hok.
  - exists []. by repeat split.
  - destruct (extract rcol from) as [v|e] eqn:Hv.
    2:{ specialize (Hok from). rewrite Hv in Hok. simpl in Hok.
        exfalso. by apply diff_false_true, Hok; lia. }
    destruct (IH (S from) w) as (items & Hrun & Hlen & Hitems).
    { intros r Hr. apply Hok. lia. }
    exists (v :: items). cbn [extract_rows]. unfold bind_ at 1. rewrite Hv.
    cbn [lift ret]. unfold bind_. rewrite Hrun. cbn [ret].
    repeat split; [simpl; by rewrite Hlen|].
    intros [|i] x Hi; simpl in Hi.
    + injection Hi as <-. by rewrite Nat.add_0_r.
    + rewrite Nat.add_succ_r. by apply (Hitems i x).
Qed.

(** C9.  A column of type time whose table entry has the object dtype is
    not converted: when the fetch and the extraction of its rows succeed,
    [result_fetch_numpy] does not raise for it, records one warning and
    returns the array of the extracted objects as it is, with the mask of
    the entry. *)
Theorem fetch_column_time (result : monetdbe_result) (c : nat) (w : World)
    (rcol : monetdbe_column) (entry : map_entry) :
  monetdbe_result_fetch lib (calls w) (result_ptr result) c = (rcol, 0%Z) ->
  col_type rcol = monetdbe_time lib ->
  monetdbe_time lib <> monetdbe_str lib ->
  monetdbe_time lib <> monetdbe_date lib ->
  monet_numpy_map (monetdbe_time lib) = Some entry ->
  numpy_type entry = dt_object ->
  (forall r, (r < nrows result)%nat -> is_ok (extract rcol r) = true) ->
  exists items,
    fetch_column result c w =
    (Ok (make_string (col_name rcol),
         {| ma_data := nd_array items; ma_mask := mask_of entry (nd_array items) |}),
     add_warning (add_calls w [c_result_fetch (result_ptr result) c 0])
       time_warning)
    /\ length items = nrows result
    /\ forall r v, items !! r = Some v -> extract rcol r = Ok v.
Proof.
  intros Hfetch Htype Hstr Hdate Hentry Hobj Hrows.
  destruct (extract_rows_ok rcol (nrows result) 0
              (add_calls w [c_result_fetch (result_ptr result) c 0]))
    as (items & Hrun & Hlen & Hitems).
  { intros r Hr. apply Hrows. lia. }
  exists items. split; [|by split].
  unfold fetch_column. unfold bind_ at 1. rewrite (result_fetch_ok _ _ _ rcol) by done.
  unfold bind_ at 1, monet_numpy_map_item. rewrite Htype, Hentry. cbn [ret].
  rewrite Hobj. cbn [is_object]. unfold bind_ at 1. unfold bind_ at 1.
  rewrite Hrun.
  apply Z.eqb_neq in Hstr, Hdate. rewrite Hstr, Hdate, Z.eqb_refl.
  unfold bind_, warn, ret, add_warning, mask_of. simpl.
  destruct (monetdbe_null entry) as [s|]; [|done]. by destruct (s =? 0)%Z.
Qed.

(** ** Further properties of the session layer *)

(** *** [query] on the active session *)

Lemma lib_query_run conn q make_result w :
  lib_query conn q make_result w =
  (Ok (monetdbe_query lib (calls w) conn q make_result),
   add_calls w [c_query conn q make_result
                  (monetdbe_query lib (calls w) conn q make_result).1.1
                  (monetdbe_query lib (calls w) conn q make_result).1.2
                  (monetdbe_query lib (calls w) conn q make_result).2]).
Proof.
  unfold lib_query. run.
  by destruct (monetdbe_query lib (calls w) conn q make_result) as [[? ?] ?].
Qed.

(** X5.  Run by the active session, [query] makes exactly one engine call, with
    the UTF-8 text of the statement.  It raises [OperationalError] exactly
    when the engine's status is not zero; otherwise it returns the affected
    row count and, only when a result was asked for, the result handle. *)
Theorem query_active (self : Internal) (text : str) (make_result : bool)
    (w : World) (conn : ptr) (q : bytes) :
  is_active self w = true ->
  _connection w = Some conn ->
  utf8 text = Some q ->
  let '(result, affected_rows, status) :=
    monetdbe_query lib (calls w) conn q make_result in
  query self text make_result w =
  (if (status =? 0)%Z
   then Ok (if make_result then Some result else None, affected_rows)
   else Raise (OperationalError (error_text status)),
   add_calls w [c_query conn q make_result result affected_rows status]).
Proof.
  intros Hact Hconn Hq.
  destruct (monetdbe_query lib (calls w) conn q make_result)
    as [[result affected_rows] status] eqn:E.
  unfold query. unfold bind_ at 1. rewrite _switch_active by done.
  unfold bind_ at 1, encode. rewrite Hq. unfold ret at 1.
  unfold bind_ at 1, connection_arg. unfold bind_ at 1, gets. rewrite Hconn.
  unfold ret at 1. unfold bind_ at 1. rewrite lib_query_run, E. cbn [fst snd].
  unfold bind_, check_error, ret, raise. by destruct (status =? 0)%Z.
Qed.

(** *** [_switch] from one session to another *)

(** The run of a [_switch] that closes one handle and opens another. *)
Lemma switch_takeover_run (self : Internal) (w : World) (old conn : ptr)
    (url : option bytes) :
  is_active self w = false ->
  _connection w = Some old ->
  old <> 0%Z ->
  monetdbe_close lib (calls w) old = 0%Z ->
  open_url self = Some url ->
  monetdbe_open lib (calls w ++ [c_close old 0]) url (options_of self)
    = (conn, 0%Z) ->
  _switch self w =
  if options_fit self then
    (Ok tt,
     {| _active_context := Some (ident self);
        in_memory_active := if dbdir self is None then true else in_memory_active w;
        _connection := Some conn;
        calls := calls w ++ [c_close old 0; c_open url (options_of self) conn 0];
        warnings := warnings w |})
  else
    (Raise OverflowError,
     {| _active_context := None;
        in_memory_active := if dbdir self is None then true else in_memory_active w;
        _connection := None;
        calls := calls w ++ [c_close old 0];
        warnings := warnings w |}).
Proof.
  intros Hact Hconn Hold Hclose Hurl Hopen.
  rewrite switch_run, close_run, Hconn by done.
  apply Z.eqb_neq in Hold. rewrite Hold. cbn zeta. rewrite Hclose. cbn [Z.eqb].
  destruct (options_fit self) eqn:Hfit.
  - rewrite (open_zero_code self _ url conn Hurl) by done.
    unfold installed, closed, add_calls. simpl. rewrite <- app_assoc. simpl.
    by destruct (dbdir self).
  - rewrite (open_overflow self _ url Hurl Hfit).
    unfold closed, add_calls. simpl. by rewrite Hconn; simpl; rewrite Hold.
Qed.

(** X6.  An object that is not active takes over from the session that holds
    the connection: when the engine closes the old handle and opens the
    new one, the old handle is closed first, then the new one is opened,
    and afterwards the object is the active session holding the new
    handle.  (An object with an option that does not fit its C field gets
    as far as closing the old handle: the process is left closed.) *)
Theorem switch_takes_over (self : Internal) (w : World) (old conn : ptr)
    (url : option bytes) :
  is_active self w = false ->
  _connection w = Some old ->
  old <> 0%Z ->
  monetdbe_close lib (calls w) old = 0%Z ->
  open_url self = Some url ->
  monetdbe_open lib (calls w ++ [c_close old 0]) url (options_of self)
    = (conn, 0%Z) ->
  _switch self w =
  if options_fit self then
    (Ok tt,
     {| _active_context := Some (ident self);
        in_memory_active := if dbdir self is None then true else in_memory_active w;
        _connection := Some conn;
        calls := calls w ++ [c_close old 0; c_open url (options_of self) conn 0];
        warnings := warnings w |})
  else
    (Raise OverflowError,
     {| _active_context := None;
        in_memory_active := if dbdir self is None then true else in_memory_active w;
        _connection := None;
        calls := calls w ++ [c_close old 0];
        warnings := warnings w |}).
Proof. apply switch_takeover_run. Qed.

(** X7.  A [_switch] that raises leaves no half-switched state: either the old
    connection could not be closed and the session is as it was, or the
    process is closed, with no active session and no connection. *)
Theorem switch_failure_leaves_closed (self : Internal) (w : World) :
  match _switch self w with
  | (Ok _, w') => is_active self w' = true
  | (Raise e, w') =>
      (e = OperationalError (lit "Failed to close database")
       /\ _active_context w' = _active_context w
       /\ _connection w' = _connection w)
      \/ (_active_context w' = None /\ truthy (_connection w') = false)
  end.
Proof.
  destruct (_switch self w) as [[[]|e] w'] eqn:Hs;
    [by apply (switch_ok_active self w)|].
  destruct (is_active self w) eqn:Hact; [by rewrite _switch_active in Hs|].
  rewrite switch_run in Hs by done.
  pose proof (close_sound self w) as Hclose.
  destruct (close self w) as [[[]|e1] w1].
  - right. destruct Hclose as (Ha & Hc & _).
    destruct (open_cases self w1)
      as [(e0 & H)|[(url & conn & H)|[(e2 & url & conn & code & _ & _ & H)
                              |(e2 & url & conn & text & code' & H)]]];
      rewrite H in Hs; inversion Hs; subst; by split.
  - left. inversion Hs; subst. by destruct Hclose as (? & ? & ? & _).
Qed.

(** *** [cleanup_statement] *)

(** X8.  [cleanup_statement] switches first too.  Run through an object that
    is not active, it closes the connection that is open, opens its own,
    and hands the statement to the engine on the new connection, not on the
    connection that was open when the call was made.  (When an option of
    the object does not fit its C field the switch raises after the close
    and the statement is not handed over at all.) *)
Theorem cleanup_statement_after_takeover (self : Internal) (statement : ptr)
    (w : World) (old conn : ptr) (url : option bytes) :
  is_active self w = false ->
  _connection w = Some old ->
  old <> 0%Z ->
  monetdbe_close lib (calls w) old = 0%Z ->
  open_url self = Some url ->
  monetdbe_open lib (calls w ++ [c_close old 0]) url (options_of self)
    = (conn, 0%Z) ->
  if options_fit self then
    calls (cleanup_statement self statement w).2
    = calls w ++ [c_close old 0; c_open url (options_of self) conn 0;
                  c_cleanup_statement conn statement]
    /\ (cleanup_statement self statement w).1 = Ok tt
    /\ _connection (cleanup_statement self statement w).2 = Some conn
  else
    calls (cleanup_statement self statement w).2 = calls w ++ [c_close old 0]
    /\ (cleanup_statement self statement w).1 = Raise OverflowError
    /\ _connection (cleanup_statement self statement w).2 = None.
Proof.
  intros Hact Hconn Hold Hclose Hurl Hopen.
  pose proof (switch_takeover_run self w old conn url Hact Hconn Hold Hclose
                Hurl Hopen) as Hs.
  destruct (options_fit self).
  - assert (H : cleanup_statement self statement w =
                (Ok tt, add_calls (_switch self w).2
                          [c_cleanup_statement conn statement])).
    { unfold cleanup_statement. unfold bind_ at 1. by rewrite Hs. }
    rewrite H, Hs. simpl. repeat split. by rewrite <- app_assoc.
  - assert (H : cleanup_statement self statement w = (Raise OverflowError, (_switch self w).2)).
    { unfold cleanup_statement. unfold bind_ at 1. by rewrite Hs. }
    rewrite H, Hs. by repeat split.
Qed.

(** *** [append]: what reaches the engine *)






Lemma append_column_ok_passes data work_columns column_num column
    (w w' : World) work_columns' :
  append_column data work_columns column_num column w = (Ok work_columns', w') ->
  column_passes data column.
Proof.
  destruct column as [column_name existing_type]. unfold append_column.
  unfold bind_ at 1. rewrite data_item_find.
  destruct (find_item data column_name) as [values|] eqn:Hfind; [|done].
  unfold bind_ at 1.
  destruct (numpy_monetdb_map (cv_dtype values)) as [[ws wt]|e] eqn:Hmap; [|done].
  cbn [lift ret]. destruct (wt =? existing_type)%Z eqn:Hty; cbn [negb].
  - apply Z.eqb_eq in Hty. subst wt. unfold bind_, encode.
    destruct (utf8 column_name) as [name|] eqn:Hname; [|done].
    intros _. by exists values, ws, name.
  - unfold bind_, monet_numpy_map_item.
    by destruct (monet_numpy_map existing_type).
Qed.

Lemma append_loop_ok_passes data columns :
  forall work_columns column_num (w w' : World) work_columns',
    append_loop data work_columns column_num columns w = (Ok work_columns', w') ->
    Forall (column_passes data) columns.
Proof.
  induction columns as [|column columns IH];
    intros work_columns column_num w w' wc'; [by constructor|].
  cbn [append_loop]. unfold bind_.
  destruct (append_column data work_columns column_num column w)
    as [[wc1|e] w1] eqn:H1; [|done].
  intros H2. constructor.
  - by eapply append_column_ok_passes.
  - by eapply IH.
Qed.

(** X4.  [append] never reaches the engine's bulk append with a batch that has
    not passed every check: if a run of [append] made a bulk-append call,
    then the names of the batch were the names of the table and every
    column of the table passed the type check. *)
Theorem append_checks_first (self : Internal) (table : str)
    (data : list (str * column_values)) (schema : str) (w : World)
    (conn : ptr) (s t : bytes) :
  is_active self w = true ->
  _connection w = Some conn ->
  utf8 schema = Some s ->
  utf8 table = Some t ->
  existsb is_append (calls w) = false ->
  existsb is_append (calls (append self table data schema w).2) = true ->
  list_to_set (map fst (existing_columns_of w conn s t))
    = (list_to_set (map fst data) : gset str)
  /\ Forall (column_passes data) (existing_columns_of w conn s t).
Proof.
  intros Hact Hconn Hs Ht Hnone.
  assert (Hasked : existsb is_append (calls (asked_columns w conn s t)) = false).
  { unfold asked_columns, add_calls. simpl. rewrite existsb_app, Hnone. done. }
  rewrite (append_asks self table data schema w conn s t) by done.
  destruct (existing_columns_of w conn s t) as [|c0 r0] eqn:E.
  { unfold bind_, unzip_columns, raise. cbn [snd]. by rewrite Hasked. }
  unfold bind_ at 1. cbn [unzip_columns ret]. unfold same_names.
  case_bool_decide as Hsame; cbn [negb].
  2:{ unfold raise. cbn [snd]. by rewrite Hasked. }
  unfold bind_ at 1.
  destruct (append_loop data (replicate (length data) None) 0 (c0 :: r0)
              (asked_columns w conn s t)) as [[wc|e] w1] eqn:Hloop.
  - intros _. split; [done|]. by eapply append_loop_ok_passes.
  - pose proof (stateless_append_loop data (c0 :: r0)
                  (replicate (length data) None) 0 (asked_columns w conn s t)) as Hst.
    rewrite Hloop in Hst. simpl in Hst. subst w1. cbn [snd]. by rewrite Hasked.
Qed.

(** *** [result_fetch_numpy]: conversions and errors *)

(** X9.  A column whose table entry has the object dtype and whose type is
    string, date or timestamp is extracted row by row and converted as a
    whole, to [str], [datetime64[D]] and [datetime64[ns]] respectively; no
    warning is recorded. *)
Theorem fetch_column_converted (result : monetdbe_result) (c : nat) (w : World)
    (rcol : monetdbe_column) (entry : map_entry) (target : str) :
  monetdbe_result_fetch lib (calls w) (result_ptr result) c = (rcol, 0%Z) ->
  monet_numpy_map (col_type rcol) = Some entry ->
  numpy_type entry = dt_object ->
  (forall r, (r < nrows result)%nat -> is_ok (extract rcol r) = true) ->
  (col_type rcol = monetdbe_str lib /\ target = lit "str")
  \/ (col_type rcol = monetdbe_date lib /\ target = lit "datetime64[D]"
      /\ monetdbe_date lib <> monetdbe_str lib)
  \/ (col_type rcol = monetdbe_timestamp lib /\ target = lit "datetime64[ns]"
      /\ monetdbe_timestamp lib <> monetdbe_str lib
      /\ monetdbe_timestamp lib <> monetdbe_date lib
      /\ monetdbe_timestamp lib <> monetdbe_time lib) ->
  exists items,
    fetch_column result c w =
    (Ok (make_string (col_name rcol),
         {| ma_data := nd_astype items target;
            ma_mask := mask_of entry (nd_astype items target) |}),
     add_calls w [c_result_fetch (result_ptr result) c 0])
    /\ length items = nrows result
    /\ forall r v, items !! r = Some v -> extract rcol r = Ok v.
Proof.
  intros Hfetch Hentry Hobj Hrows Hkind.
  destruct (extract_rows_ok rcol (nrows result) 0
              (add_calls w [c_result_fetch (result_ptr result) c 0]))
    as (items & Hrun & Hlen & Hitems).
  { intros r Hr. apply Hrows. lia. }
  exists items. split; [|by split].
  unfold fetch_column. unfold bind_ at 1. rewrite (result_fetch_ok _ _ _ rcol) by done.
  unfold bind_ at 1, monet_numpy_map_item. rewrite Hentry. cbn [ret].
  rewrite Hobj. cbn [is_object]. unfold bind_ at 1. unfold bind_ at 1.
  rewrite Hrun.
  assert (Hmask : forall a : ndarray,
             match monetdbe_null entry with
             | Some s => if negb (s =? 0)%Z then mask_array (elementwise_eq a s)
                         else nomask
             | None => nomask
             end = mask_of entry a).
  { intros a. unfold mask_of. destruct (monetdbe_null entry) as [s|]; [|done].
    by destruct (s =? 0)%Z. }
  destruct Hkind as [[Hty ->]|[(Hty & -> & H1)|(Hty & -> & H1 & H2 & H3)]];
    rewrite Hty.
  - rewrite Z.eqb_refl. unfold bind_, ret. cbn [astype]. by rewrite Hmask.
  - apply Z.eqb_neq in H1. rewrite H1, Z.eqb_refl.
    unfold bind_, ret. cbn [astype]. by rewrite Hmask.
  - apply Z.eqb_neq in H1, H2, H3. rewrite H1, H2, H3, Z.eqb_refl.
    unfold bind_, ret. cbn [astype]. by rewrite Hmask.
Qed.

(** The run of [fetch_column] up to the look-up in the table. *)
Lemma fetch_column_run_errors (result : monetdbe_result) (c : nat) (w : World) :
  let '(rcol, status) :=
    monetdbe_result_fetch lib (calls w) (result_ptr result) c in
  let fetched := add_calls w [c_result_fetch (result_ptr result) c status] in
  if (status =? 0)%Z then
    match monet_numpy_map (col_type rcol) with
    | None => fetch_column result c w = (Raise KeyError, fetched)
    | Some _ => calls (fetch_column result c w).2 = calls fetched
    end
  else
    fetch_column result c w = (Raise (OperationalError (error_text status)), fetched).
Proof.
  destruct (monetdbe_result_fetch lib (calls w) (result_ptr result) c)
    as [rcol status] eqn:E.
  assert (Hrf : result_fetch result c w =
                (if (status =? 0)%Z then Ok rcol
                 else Raise (OperationalError (error_text status)),
                 add_calls w [c_result_fetch (result_ptr result) c status])).
  { unfold result_fetch, bind_. rewrite lib_result_fetch_run, E. simpl.
    unfold check_error. by destruct (status =? 0)%Z. }
  assert (Hex : forall n from v, calls (extract_rows rcol from n v).2 = calls v).
  { induction n as [|n IH]; intros from v; [done|]. cbn [extract_rows].
    unfold bind_ at 1. destruct (extract rcol from) as [x|e]; [|done].
    cbn [lift ret]. unfold bind_. specialize (IH (S from) v).
    by destruct (extract_rows rcol (S from) n v) as [[r|e] v']. }
  cbn zeta. destruct (status =? 0)%Z.
  2:{ unfold fetch_column. unfold bind_ at 1. by rewrite Hrf. }
  destruct (monet_numpy_map (col_type rcol)) as [entry|] eqn:Hentry.
  2:{ unfold fetch_column. unfold bind_ at 1. rewrite Hrf.
      unfold bind_ at 1, monet_numpy_map_item. by rewrite Hentry. }
  unfold fetch_column. unfold bind_ at 1. rewrite Hrf.
  unfold bind_ at 1, monet_numpy_map_item. rewrite Hentry.
  cbn [ret]. unfold bind_ at 1.
  set (w1 := add_calls w _).
  destruct (is_object (numpy_type entry)).
  - unfold bind_ at 1. specialize (Hex (nrows result) 0%nat w1).
    destruct (extract_rows rcol 0 (nrows result) w1) as [[items|e] v]; [|done].
    cbn [snd] in Hex. rewrite <- Hex.
    by repeat (destruct (_ =? _)%Z).
  - done.
Qed.

(** X10.  A column the engine cannot fetch raises [OperationalError] and no row
    is read; a column whose type tag is not a key of the table raises
    [KeyError] after the fetch. *)
Theorem fetch_column_errors (result : monetdbe_result) (c : nat) (w : World) :
  let '(rcol, status) :=
    monetdbe_result_fetch lib (calls w) (result_ptr result) c in
  let fetched := add_calls w [c_result_fetch (result_ptr result) c status] in
  if (status =? 0)%Z then
    match monet_numpy_map (col_type rcol) with
    | None => fetch_column result c w = (Raise KeyError, fetched)
    | Some _ => calls (fetch_column result c w).2 = calls fetched
    end
  else
    fetch_column result c w = (Raise (OperationalError (error_text status)), fetched).
Proof. apply fetch_column_run_errors. Qed.

Lemma fetch_column_one_call (result : monetdbe_result) (c : nat) (w : World) :
  exists status,
    calls (fetch_column result c w).2
    = calls w ++ [c_result_fetch (result_ptr result) c status].
Proof.
  pose proof (fetch_column_run_errors result c w) as H.
  destruct (monetdbe_result_fetch lib (calls w) (result_ptr result) c)
    as [rcol status].
  exists status. cbn zeta in H. destruct (status =? 0)%Z.
  - destruct (monet_numpy_map (col_type rcol)); by rewrite H.
  - by rewrite H.
Qed.

Lemma fetch_columns_in_order (result : monetdbe_result) (n : nat) :
  forall c (d : gmap str masked_array) (w : World),
    exists cs k,
      calls (fetch_columns result c n d w).2 = calls w ++ cs
      /\ omap (fetch_of (result_ptr result)) cs = seq c k
      /\ length cs = k
      /\ match fetch_columns result c n d w with
         | (Ok _, _) => k = n
         | (Raise e, w') =>
             exists j dj wj,
               k = S j /\ (j < n)%nat
               /\ fetch_columns result c j d w = (Ok dj, wj)
               /\ fetch_column result (c + j) wj = (Raise e, w')
         end.
Proof.
  induction n as [|n IH]; intros c d w.
  - exists [], 0%nat. simpl. by rewrite app_nil_r.
  - cbn [fetch_columns]. unfold bind_.
    destruct (fetch_column_one_call result c w) as (status & Hone).
    destruct (fetch_column result c w) as [[column|e] w1] eqn:Hcol; simpl in Hone.
    + destruct (IH (S c) (<[column.1 := column.2]> d) w1)
        as (cs & k & Hcs & Hseq & Hlen & Hend).
      exists (c_result_fetch (result_ptr result) c status :: cs), (S k).
      rewrite Hcs, Hone, <- app_assoc.
      assert (Hhead : omap (fetch_of (result_ptr result))
                        (c_result_fetch (result_ptr result) c status :: cs)
                      = c :: omap (fetch_of (result_ptr result)) cs).
      { cbn. by rewrite Z.eqb_refl. }
      rewrite Hhead, Hseq. cbn [length seq]. rewrite Hlen.
      do 3 (split; [done|]).
      destruct (fetch_columns result (S c) n (<[column.1 := column.2]> d) w1)
        as [[d'|e] w'].
      * by rewrite Hend.
      * destruct Hend as (j & dj & wj & -> & Hj & Hpre & Hfail).
        exists (S j), dj, wj. split; [done|]. split; [lia|].
        split.
        -- cbn [fetch_columns]. unfold bind_. by rewrite Hcol.
        -- by rewrite Nat.add_succ_r.
    + exists [c_result_fetch (result_ptr result) c status], 1%nat.
      cbn [fst snd]. rewrite Hone. cbn. rewrite Z.eqb_refl.
      do 3 (split; [done|]).
      exists 0%nat, d, w. split; [done|]. split; [lia|].
      split; [done|]. by rewrite Nat.add_0_r.
Qed.

(** X11.  [result_fetch_numpy] fetches the columns of the result one by one from
    column 0 upwards and makes no other engine call.  When it returns,
    every column has been fetched exactly once.  When it raises, the
    exception is the one of the first column whose processing raises:
    the columns before it were processed without error, the last fetch
    made is the fetch of that column, and the run ends in the state that
    column's processing left, so no later column is fetched. *)
Theorem result_fetch_numpy_in_order (result : monetdbe_result) (w : World) :
  exists cs k,
    calls (result_fetch_numpy result w).2 = calls w ++ cs
    /\ omap (fetch_of (result_ptr result)) cs = seq 0 k
    /\ length cs = k
    /\ match result_fetch_numpy result w with
       | (Ok _, _) => k = ncols result
       | (Raise e, w') =>
           exists j dj wj,
             k = S j /\ (j < ncols result)%nat
             /\ fetch_columns result 0 j ∅ w = (Ok dj, wj)
             /\ fetch_column result j wj = (Raise e, w')
       end.
Proof. apply (fetch_columns_in_order result (ncols result) 0 ∅ w). Qed.

(** *** The in-memory flag *)

Lemma keeps_flag_bind {A B} (m : M A) (k : A -> M B) :
  keeps_flag m -> (forall a, keeps_flag (k a)) -> keeps_flag (bind_ m k).
Proof.
  intros Hm Hk w Hw. unfold bind_. specialize (Hm w Hw).
  destruct (m w) as [[a|e] w']; simpl in *; [by apply Hk|done].
Qed.

Lemma keeps_flag_stateless {A} (m : M A) : stateless m -> keeps_flag m.
Proof. intros H w Hw. by rewrite H. Qed.

Lemma keeps_flag_record {A} (m : M A) :
  (forall w, exists cs, (m w).2 = add_calls w cs) -> keeps_flag m.
Proof. intros H w Hw. destruct (H w) as [cs ->]. done. Qed.

Lemma keeps_flag_connection_arg : keeps_flag connection_arg.
Proof.
  apply keeps_flag_stateless. intros w. unfold connection_arg. run.
  by destruct (_connection w).
Qed.

Lemma keeps_flag_check_error status : keeps_flag (check_error status).
Proof.
  apply keeps_flag_stateless. intros w. unfold check_error.
  by destruct (status =? 0)%Z.
Qed.

Lemma keeps_flag_close (self : Internal) : keeps_flag (close self).
Proof.
  intros w Hw. rewrite close_run. destruct (_connection w) as [c|].
  - destruct (c =? 0)%Z; simpl.
    + rewrite Hw. by destruct (dbdir self).
    + destruct (monetdbe_close lib (calls w) c =? 0)%Z; simpl; [|done].
      rewrite Hw. by destruct (dbdir self).
  - simpl. rewrite Hw. by destruct (dbdir self).
Qed.

Lemma keeps_flag_open (self : Internal) : keeps_flag (open self).
Proof.
  intros w Hw.
  destruct (open_cases self w)
    as [(e0 & H)|[(url & conn & H)|[(e2 & url & conn & code & _ & _ & H)
                            |(e2 & url & conn & text & code' & H)]]];
    by rewrite H.
Qed.

Lemma keeps_flag_switch (self : Internal) : keeps_flag (_switch self).
Proof.
  intros w Hw. destruct (is_active self w) eqn:Hact.
  { by rewrite _switch_active. }
  rewrite switch_run by done. pose proof (keeps_flag_close self w Hw) as H1.
  destruct (close self w) as [[[]|e] w1]; [|done]. simpl in H1.
  pose proof (keeps_flag_open self w1 H1) as H2.
  destruct (open self w1) as [[conn|e] w2]; [|done]. simpl in *.
  rewrite H2. by destruct (dbdir self).
Qed.

Lemma keeps_flag_get_columns_enter self table schema :
  keeps_flag (get_columns_enter self table schema).
Proof.
  unfold get_columns_enter.
  apply keeps_flag_bind; [apply keeps_flag_switch|]. intros _.
  apply keeps_flag_bind; [apply keeps_flag_stateless, stateless_encode|]. intros s.
  apply keeps_flag_bind; [apply keeps_flag_stateless, stateless_encode|]. intros t.
  apply keeps_flag_bind; [apply keeps_flag_connection_arg|]. intros conn.
  apply keeps_flag_bind; [|intros; by apply keeps_flag_stateless].
  apply keeps_flag_record. intros w. rewrite lib_get_columns_run. by eexists.
Qed.

Lemma keeps_flag_perform (self : Internal) (o : operation) :
  keeps_flag (perform self o).
Proof.
  destruct o as [q make_result|q|table data schema|value| |table schema]; simpl.
  - apply keeps_flag_bind; [|intros; by apply keeps_flag_stateless].
    unfold query.
    apply keeps_flag_bind; [apply keeps_flag_switch|]. intros _.
    apply keeps_flag_bind; [apply keeps_flag_stateless, stateless_encode|]. intros q'.
    apply keeps_flag_bind; [apply keeps_flag_connection_arg|]. intros conn.
    apply keeps_flag_bind.
    { apply keeps_flag_record. intros w. rewrite lib_query_run. by eexists. }
    intros [[r a] st].
    apply keeps_flag_bind; [apply keeps_flag_check_error|].
    intros; by apply keeps_flag_stateless.
  - apply keeps_flag_bind; [|intros; by apply keeps_flag_stateless].
    unfold prepare.
    apply keeps_flag_bind; [apply keeps_flag_switch|]. intros _.
    apply keeps_flag_bind; [apply keeps_flag_stateless, stateless_encode|]. intros q'.
    apply keeps_flag_bind; [apply keeps_flag_connection_arg|]. intros conn.
    apply keeps_flag_bind.
    { apply keeps_flag_record. intros w. unfold lib_prepare. run.
      destruct (monetdbe_prepare lib (calls w) conn q') as [stmt st]. by eexists. }
    intros [stmt st].
    apply keeps_flag_bind; [apply keeps_flag_check_error|].
    intros; by apply keeps_flag_stateless.
  - unfold append.
    apply keeps_flag_bind; [apply keeps_flag_switch|]. intros _.
    apply keeps_flag_bind; [apply keeps_flag_get_columns_enter|]. intros cols.
    apply keeps_flag_bind; [apply keeps_flag_stateless, stateless_unzip_columns|].
    intros [existing_names existing_types].
    destruct (negb (same_names existing_names (map fst data)));
      [by apply keeps_flag_stateless|].
    apply keeps_flag_bind; [apply keeps_flag_stateless, stateless_append_loop|].
    intros work_columns.
    apply keeps_flag_bind; [apply keeps_flag_stateless, stateless_encode|]. intros s.
    apply keeps_flag_bind; [apply keeps_flag_stateless, stateless_encode|]. intros t.
    apply keeps_flag_bind; [apply keeps_flag_connection_arg|]. intros conn.
    apply keeps_flag_bind; [|intros; apply keeps_flag_check_error].
    apply keeps_flag_record. intros w. by eexists.
  - unfold set_autocommit.
    apply keeps_flag_bind; [apply keeps_flag_switch|]. intros _.
    apply keeps_flag_bind; [apply keeps_flag_connection_arg|]. intros conn.
    apply keeps_flag_bind; [|intros; apply keeps_flag_check_error].
    apply keeps_flag_record. intros w. by eexists.
  - apply keeps_flag_bind; [|intros; by apply keeps_flag_stateless].
    unfold in_transaction.
    apply keeps_flag_bind; [apply keeps_flag_switch|]. intros _.
    apply keeps_flag_bind; [apply keeps_flag_connection_arg|]. intros conn.
    apply keeps_flag_bind; [|intros; by apply keeps_flag_stateless].
    apply keeps_flag_record. intros w. by eexists.
  - apply keeps_flag_bind; [|intros; by apply keeps_flag_stateless].
    apply keeps_flag_get_columns_enter.
Qed.

(** X12.  The in-memory flag is only ever set: no call through [Internal] clears
    it, not even closing the in-memory session, and it is set as soon as an
    object without storage path has switched in. *)
Theorem in_memory_flag_sticks (w : World) (a : api) (self : Internal) :
  (if in_memory_active w then in_memory_active (step w a) = true else True)
  /\ match _switch self w with
     | (Ok _, w') =>
         if dbdir self is None
         then (if is_active self w then w' = w else in_memory_active w' = true)
         else in_memory_active w' = in_memory_active w
     | (Raise _, _) => True
     end.
Proof.
  split.
  - destruct (in_memory_active w) eqn:Hw; [|done].
    destruct a as [s|s|s|s o|g|s statement|s result|statement data parameter_nr];
      simpl.
    + by apply keeps_flag_switch.
    + unfold __del__. unfold bind_ at 1, gets at 1.
      destruct (is_active s w); [by apply keeps_flag_close|done].
    + by apply keeps_flag_close.
    + by apply keeps_flag_perform.
    + destruct g as [s table schema|rest|]; simpl; [|done|done].
      pose proof (keeps_flag_get_columns_enter s table schema w Hw) as H.
      by destruct (get_columns_enter s table schema w) as [[rows|e] w'];
        [destruct rows|].
    + revert w Hw. change (keeps_flag (cleanup_statement s statement)).
      unfold cleanup_statement.
      apply keeps_flag_bind; [apply keeps_flag_switch|]. intros _.
      apply keeps_flag_bind; [apply keeps_flag_connection_arg|]. intros conn.
      apply keeps_flag_record. intros w. by eexists.
    + revert w Hw. change (keeps_flag (cleanup_result s result)).
      unfold cleanup_result.
      apply keeps_flag_bind; [by apply keeps_flag_stateless|]. intros conn.
      destruct (truthy result && truthy conn); [|by apply keeps_flag_stateless].
      destruct result as [r|], conn as [c|]; try by apply keeps_flag_stateless.
      apply keeps_flag_bind; [|intros; apply keeps_flag_check_error].
      apply keeps_flag_record. intros w. by eexists.
    + revert w Hw. change (keeps_flag (bind statement data parameter_nr)).
      unfold bind.
      apply keeps_flag_bind; [apply keeps_flag_stateless, stateless_lift|].
      intros s0.
      apply keeps_flag_bind; [apply keeps_flag_stateless, stateless_encode|].
      intros text.
      apply keeps_flag_bind; [apply keeps_flag_stateless, stateless_c_size_t|].
      intros nr.
      apply keeps_flag_bind; [|intros; apply keeps_flag_check_error].
      apply keeps_flag_record. intros w. by eexists.
  - destruct (is_active self w) eqn:Hact.
    { rewrite _switch_active by done. by destruct (dbdir self). }
    rewrite switch_run by done.
    pose proof (close_sound self w) as Hclose.
    destruct (close self w) as [[[]|e] w1]; [|done].
    destruct Hclose as (_ & _ & Hflag).
    destruct (open_cases self w1)
      as [(e0 & H)|[(url & conn & H)|[(e2 & url & conn & code & _ & _ & H)
                              |(e2 & url & conn & text & code' & H)]]];
      rewrite H; try done.
    simpl. by destruct (dbdir self).
Qed.

(** *** [bind] of an integer *)

Lemma utf8_ascii (s : str) :
  Forall (fun c => (c < 128)%N) s -> utf8 s = Some (map byte_of_N s).
Proof.
  induction 1 as [|c s Hc _ IH]; [done|]. cbn [utf8 map]. rewrite IH.
  unfold utf8_char. apply N.ltb_lt in Hc.
  change 0x80%N with 128%N. by rewrite Hc.
Qed.

Lemma digits_ascii (d : Decimal.uint) :
  Forall (fun c => (c < 128)%N) (lit (NilEmpty.string_of_uint d)).
Proof.
  induction d; cbn; constructor; done || lia.
Qed.

Lemma str_of_Z_ascii (z : Z) : Forall (fun c => (c < 128)%N) (str_of_Z z).
Proof.
  unfold str_of_Z.
  assert (H : forall d, Forall (fun c => (c < 128)%N)
                          (lit (NilZero.string_of_uint d))).
  { intros d. destruct d; try apply (digits_ascii (_ _)).
    cbn. constructor; [lia|done]. }
  destruct (Z.to_int z) as [d|d]; cbn [NilZero.string_of_int]; [apply H|].
  change (lit (String "-" (NilZero.string_of_uint d)))
    with (45%N :: lit (NilZero.string_of_uint d)).
  constructor; [lia|apply H].
Qed.

(** X13.  An [int] parameter within the digit limit of the interpreter,
    bound at an index that fits a [size_t], reaches the engine: its text is
    the decimal representation, one ASCII byte per character, so the
    encoding cannot fail; [bind] then raises exactly when the engine's
    status is not zero.  An [int] beyond the limit raises [ValueError] and
    an index that does not fit raises [OverflowError], both before the
    engine is called. *)
Theorem bind_int_sent (statement : ptr) (z : Z) (parameter_nr : Z) (w : World) :
  let text := map byte_of_N (lit (NilZero.string_of_int (Z.to_int z))) in
  let status := monetdbe_bind lib (calls w) statement text parameter_nr in
  let within := negb ((0 <? int_max_str_digits)
                      && (10 ^ int_max_str_digits <=? Z.abs z))%Z in
  Forall (fun b => (Byte.to_N b < 128)%N) text
  /\ bind statement (py_int z) parameter_nr w =
     if within then
       if fits_size_t parameter_nr then
         (if (status =? 0)%Z then Ok tt
          else Raise (OperationalError (error_text status)),
          add_calls w [c_bind statement text parameter_nr status])
       else (Raise OverflowError, w)
     else (Raise (ValueError (digits_message int_max_str_digits)), w).
Proof.
  cbn zeta. split.
  - apply Forall_map. eapply Forall_impl; [apply (str_of_Z_ascii z)|].
    intros c Hc. unfold byte_of_N.
    destruct (Byte.of_N c) as [b|] eqn:Hb.
    + apply Byte.to_of_N in Hb. by rewrite Hb.
    + simpl. lia.
  - rewrite bind_run. cbn [py_str_of].
    destruct ((0 <? int_max_str_digits) && (10 ^ int_max_str_digits <=? Z.abs z))%Z;
      [reflexivity|]. cbn [negb].
    change (lit (NilZero.string_of_int (Z.to_int z))) with (str_of_Z z).
    by rewrite (utf8_ascii _ (str_of_Z_ascii z)).
Qed.

(** ** The timestamp converter of [dbapi2.py] *)

Lemma split_nonempty (sep : Byte.byte) (val : bytes) : split sep val <> [].
Proof.
  destruct val as [|c r]; [done|]. simpl.
  destruct (Byte.eqb c sep); [done|]. by destruct (split sep r).
Qed.

Lemma split_free (sep : Byte.byte) (val : bytes) :
  sep ∉ val -> split sep val = [val].
Proof.
  induction val as [|c r IH]; intros Hfree; [done|]. simpl.
  apply not_elem_of_cons in Hfree as [Hc Hr].
  destruct (Byte.eqb c sep) eqn:E; [by apply Byte.byte_dec_bl in E|].
  by rewrite IH.
Qed.

Lemma split_app (sep : Byte.byte) (a b : bytes) :
  sep ∉ a -> split sep (a ++ sep :: b) = a :: split sep b.
Proof.
  induction a as [|c r IH]; intros Hfree; simpl.
  - by rewrite Byte.byte_dec_lb.
  - apply not_elem_of_cons in Hfree as [Hc Hr].
    destruct (Byte.eqb c sep) eqn:E; [by apply Byte.byte_dec_bl in E|].
    by rewrite IH.
Qed.

(** Splitting undoes joining: pieces that do not contain the
    separator, joined with it, split back into the same pieces. *)
Theorem split_join (sep : Byte.byte) (pieces : list bytes) :
  Forall (fun piece => sep ∉ piece) pieces ->
  pieces <> [] ->
  split sep (join_bytes sep pieces) = pieces.
Proof.
  induction 1 as [|piece rest Hp Hrest IH]; intros Hne; [done|].
  destruct rest as [|piece' rest'].
  - by apply split_free.
  - change (join_bytes sep (piece :: piece' :: rest'))
      with (piece ++ sep :: join_bytes sep (piece' :: rest')).
    rewrite split_app by done. by rewrite IH.
Qed.

Lemma join_bytes_free (sep other : Byte.byte) (pieces : list bytes) :
  other <> sep ->
  Forall (fun piece => other ∉ piece) pieces ->
  other ∉ join_bytes sep pieces.
Proof.
  intros Hne. induction 1 as [|piece rest Hp Hrest IH]; [by apply not_elem_of_nil|].
  destruct rest as [|piece' rest']; [done|].
  change (join_bytes sep (piece :: piece' :: rest'))
    with (piece ++ sep :: join_bytes sep (piece' :: rest')).
  rewrite elem_of_app, elem_of_cons. intros [H|[H|H]]; [done|done|by apply IH].
Qed.

Lemma unpack3_map_ok {A B} (f : A -> res B) (a b c : A) (x y z : B) :
  f a = Ok x -> f b = Ok y -> f c = Ok z ->
  unpack3_map f [a; b; c] = Ok (x, y, z).
Proof. intros Ha Hb Hc. simpl. by rewrite Ha, Hb, Hc. Qed.

(** X15.  [convert_timestamp] on a text of the form
    [Y-M-D h:m:s], optionally followed by fractions separated by dots:
    the six integers go to [datetime.datetime] in this order.  With
    exactly one fraction the microseconds are the integer of the fraction
    cut or zero-padded to six characters; with no fraction, and also with
    two or more dots, the microseconds are 0 and no error is raised. *)
Theorem convert_timestamp_parts (y m d h mi s : bytes) (fractions : list bytes)
    (year month day hours minutes seconds : Z) :
  Forall (fun piece => (Byte.x2d ∉ piece) /\ (Byte.x20 ∉ piece)) [y; m; d] ->
  Forall (fun piece => (Byte.x3a ∉ piece) /\ (Byte.x2e ∉ piece)
                       /\ (Byte.x20 ∉ piece)) [h; mi; s] ->
  Forall (fun piece => (Byte.x2e ∉ piece) /\ (Byte.x20 ∉ piece)) fractions ->
  int_of_bytes y = Ok year -> int_of_bytes m = Ok month ->
  int_of_bytes d = Ok day -> int_of_bytes h = Ok hours ->
  int_of_bytes mi = Ok minutes -> int_of_bytes s = Ok seconds ->
  convert_timestamp
    (join_bytes Byte.x20
       [join_bytes Byte.x2d [y; m; d];
        join_bytes Byte.x2e (join_bytes Byte.x3a [h; mi; s] :: fractions)])
  = match match fractions with
          | [fraction] =>
              rbind (decode fraction) (fun text => int_of_str (format_0_6 text))
          | _ => Ok 0%Z
          end with
    | Ok microseconds =>
        datetime_datetime year month day hours minutes seconds microseconds
    | Raise e => Raise e
    end.
Proof.
  intros Hdate Htime Hfrac Hy Hm Hd Hh Hmi Hs.
  set (datepart := join_bytes Byte.x2d [y; m; d]).
  set (clock := join_bytes Byte.x3a [h; mi; s]).
  set (timepart := join_bytes Byte.x2e (clock :: fractions)).
  assert (Hclock : (Byte.x2e ∉ clock) /\ (Byte.x20 ∉ clock)).
  { split; apply join_bytes_free; try done;
      eapply Forall_impl; try exact Htime; by intros ? (? & ? & ?). }
  assert (Hsplit0 : split Byte.x20 (join_bytes Byte.x20 [datepart; timepart])
                    = [datepart; timepart]).
  { apply split_join; [|done]. repeat constructor.
    - apply join_bytes_free; [done|].
      eapply Forall_impl; [exact Hdate|by intros ? [? ?]].
    - apply join_bytes_free; [done|]. constructor; [apply Hclock|].
      eapply Forall_impl; [exact Hfrac|by intros ? [? ?]]. }
  assert (Hsplit1 : split Byte.x2d datepart = [y; m; d]).
  { apply split_join; [|done]. eapply Forall_impl; [exact Hdate|by intros ? [? ?]]. }
  assert (Hsplit2 : split Byte.x2e timepart = clock :: fractions).
  { apply split_join; [|done]. constructor; [apply Hclock|].
    eapply Forall_impl; [exact Hfrac|by intros ? [? ?]]. }
  assert (Hsplit3 : split Byte.x3a clock = [h; mi; s]).
  { apply split_join; [|done].
    eapply Forall_impl; [exact Htime|by intros ? (? & ? & ?)]. }
  unfold convert_timestamp. rewrite Hsplit0. cbn [unpack2 rbind].
  rewrite Hsplit1, (unpack3_map_ok _ _ _ _ year month day) by done.
  cbn [rbind]. rewrite Hsplit2. cbn [hd].
  rewrite Hsplit3, (unpack3_map_ok _ _ _ _ hours minutes seconds) by done.
  cbn [rbind].
  by destruct fractions as [|f1 [|f2 rest]].
Qed.

Lemma decimal_app (s t : str) :
  decimal (s ++ t)
  = fold_left (fun acc c => (10 * acc + (Z.of_N c - 48))%Z) t (decimal s).
Proof. unfold decimal. by rewrite fold_left_app. Qed.

Lemma decimal_zeros (acc : Z) (n : nat) :
  fold_left (fun acc c => (10 * acc + (Z.of_N c - 48))%Z) (replicate n 48%N) acc
  = (acc * 10 ^ Z.of_nat n)%Z.
Proof.
  revert acc. induction n as [|n IH]; intros acc;
    [cbn [replicate fold_left]; change (Z.of_nat 0) with 0%Z;
     rewrite Z.pow_0_r; lia|].
  cbn [replicate fold_left]. rewrite IH, Nat2Z.inj_succ, Z.pow_succ_r by lia.
  change (Z.of_N 48 - 48)%Z with 0%Z. ring.
Qed.

Lemma decimal_bound (s : str) :
  Forall (fun c => digit c = true) s ->
  (0 <= decimal s < 10 ^ Z.of_nat (length s))%Z.
Proof.
  induction s as [|c s IH] using rev_ind; intros Hd; [by vm_compute|].
  apply Forall_app in Hd as [Hs Hc]. apply Forall_inv in Hc.
  specialize (IH Hs). rewrite decimal_app, length_app. cbn [fold_left length].
  unfold digit in Hc. apply andb_true_iff in Hc as [H1 H2].
  apply N.leb_le in H1, H2.
  rewrite Nat2Z.inj_add. change (Z.of_nat 1) with 1%Z.
  rewrite Z.pow_add_r, Z.pow_1_r by lia. lia.
Qed.

(** X16.  The text whose integer becomes the microseconds always has six
    characters: at most the first six of the fraction, then zeros.  Read
    as a decimal number it is the value of the first six characters
    (further ones are cut off, not rounded), scaled by ten for every
    missing one; for a fraction of decimal digits it therefore lies below
    one million. *)
Theorem format_0_6_value (text : str) :
  length (format_0_6 text) = 6%nat
  /\ format_0_6 text
     = take 6 text ++ replicate (6 - length (take 6 text)) 48%N
  /\ decimal (format_0_6 text)
     = (decimal (take 6 text) * 10 ^ Z.of_nat (6 - length (take 6 text)))%Z
  /\ (Forall (fun c => digit c = true) text ->
      (0 <= decimal (format_0_6 text) < 10 ^ 6)%Z).
Proof.
  unfold format_0_6.
  assert (Hlen : (length (take 6 text) <= 6)%nat) by (rewrite length_take; lia).
  assert (Hval : decimal (take 6 text ++ replicate (6 - length (take 6 text)) 48%N)
                 = (decimal (take 6 text)
                    * 10 ^ Z.of_nat (6 - length (take 6 text)))%Z).
  { by rewrite decimal_app, decimal_zeros. }
  split; [rewrite length_app, length_replicate; lia|].
  split; [done|]. split; [done|].
  intros Hd. rewrite Hval.
  pose proof (decimal_bound (take 6 text)) as Hb.
  assert (Htake : Forall (fun c => digit c = true) (take 6 text)).
  { by apply Forall_take. }
  specialize (Hb Htake).
  set (k := length (take 6 text)) in *.
  replace (10 ^ 6)%Z with (10 ^ Z.of_nat k * 10 ^ Z.of_nat (6 - k))%Z.
  2:{ rewrite <- Z.pow_add_r by lia. f_equal. lia. }
  assert (0 < 10 ^ Z.of_nat (6 - k))%Z by (apply Z.pow_pos_nonneg; lia).
  nia.
Qed.

(** X17.  A text without a space, such as a timestamp in ISO form with a
    [T] between date and time, is rejected by [convert_timestamp] with the
    [ValueError] of the failed unpacking, before any number is parsed. *)
Theorem convert_timestamp_no_space (val : bytes) :
  Byte.x20 ∉ val ->
  convert_timestamp val = Raise (not_enough 2 1).
Proof. intros H. unfold convert_timestamp. by rewrite split_free. Qed.

End Binding.

(** ** The statements at concrete inputs *)

(** An open that the engine answers with -2: the message carries the
    engine's text and the handle is closed before the exception. *)
Lemma open_nonzero_code_witness :
  open (scripted (-2)%Z 0%Z [] 0%Z 0%Z) example_resolve (in_memory_session 1)
    initial_world
  = (Raise (OperationalError
              (lit "Failed to open database: engine says no (code -2)")),
     add_calls initial_world
       [c_open None
          {| opt_memorylimit := 0; opt_querytimeout := 0;
             opt_sessiontimeout := 0; opt_nr_threads := 0 |} 1000%Z (-2)%Z;
        c_error 1000%Z (lit "engine says no"); c_close 1000%Z 0%Z]).
Proof.
  exact (open_nonzero_code (scripted (-2)%Z 0%Z [] 0%Z 0%Z) example_resolve
           (in_memory_session 1) initial_world None 1000%Z (-2)%Z
           eq_refl eq_refl eq_refl ltac:(discriminate)).
Defined.

(** The other codes: the text of the fixed table, and no call but the
    [monetdbe_open]. *)
Example open_allocation_failed :
  open (scripted (-1)%Z 0%Z [] 0%Z 0%Z) example_resolve
    (on_disk_session 1 (lit "/db")) initial_world
  = (Raise (OperationalError
              (lit "Failed to open database: Allocation failed (code -1)")),
     add_calls initial_world
       [c_open (Some (ascii_bytes "/db"))
          {| opt_memorylimit := 0; opt_querytimeout := 0;
             opt_sessiontimeout := 0; opt_nr_threads := 0 |} 1000%Z (-1)%Z]).
Proof. by vm_compute. Qed.

Example open_unknown_code :
  open (scripted 7%Z 0%Z [] 0%Z 0%Z) example_resolve (in_memory_session 1)
    initial_world
  = (Raise (OperationalError
              (lit "Failed to open database: unknown error (code 7)")),
     add_calls initial_world
       [c_open None
          {| opt_memorylimit := 0; opt_querytimeout := 0;
             opt_sessiontimeout := 0; opt_nr_threads := 0 |} 1000%Z 7%Z]).
Proof. by vm_compute. Qed.

(** An option that does not fit a C [int]: [open] raises before the engine
    is called. *)
Example open_option_overflow :
  open (scripted 0%Z 0%Z [] 0%Z 0%Z) example_resolve
    {| ident := 1; dbdir := None; memorylimit := 2 ^ 31; querytimeout := 0;
       sessiontimeout := 0; nr_threads := 0; have_hge := false |}
    initial_world
  = (Raise OverflowError, initial_world).
Proof. by vm_compute. Qed.

(** C7, counterexample.  An in-memory object closes while another session
    holds the connection and the engine refuses to close: [close] raises
    and the in-memory flag is still unset. *)
Lemma close_failure_leaves_flag :
  dbdir (in_memory_session 2) = None
  /\ close (scripted 0%Z 1%Z [] 0%Z 0%Z) (in_memory_session 2)
       (world_with 1 5%Z false)
     = (Raise (OperationalError (lit "Failed to close database")),
        add_calls (world_with 1 5%Z false) [c_close 5%Z 1%Z])
  /\ in_memory_active
       (close (scripted 0%Z 1%Z [] 0%Z 0%Z) (in_memory_session 2)
          (world_with 1 5%Z false)).2
     = false.
Proof. by vm_compute. Qed.

(** C3, counterexample.  The same result cleaned up twice while the
    connection is held: the engine is asked to release it both times, and
    when it reports the second release as an error the second call
    raises. *)
Lemma cleanup_result_twice_releases_twice :
  let lib := scripted 0%Z 0%Z [] 0%Z 0%Z in
  let self := in_memory_session 1 in
  let w1 := (cleanup_result lib example_error_text self (Some 7%Z)
               (world_with 1 5%Z true)).2 in
  cleanup_result lib example_error_text self (Some 7%Z) (world_with 1 5%Z true)
  = (Ok tt, w1)
  /\ cleanup_result lib example_error_text self (Some 7%Z) w1
     = (Raise (OperationalError (example_error_text 1%Z)),
        add_calls (world_with 1 5%Z true)
          [c_cleanup_result 5%Z 7%Z 0%Z; c_cleanup_result 5%Z 7%Z 1%Z]).
Proof. by vm_compute. Qed.


(** The same column, evaluated: the first row is null, the second is not. *)
Example fetch_column_int32 :
  fetch_column (scripted 0%Z 0%Z [] 0%Z 0%Z) example_error_text example_map
    example_make_string example_extract example_memory example_float_eqb
    example_converted_eqb (two_rows 4) 3 initial_world
  = (Ok ([], {| ma_data := nd_frombuffer 64%Z 2 (dt_int 32%Z);
                ma_mask := mask_array [true; false] |}),
     add_calls initial_world [c_result_fetch 77%Z 3 0%Z]).
Proof. by vm_compute. Qed.

(** A column of type time: a warning, no conversion. *)
Lemma fetch_column_time_witness :
  exists items,
    fetch_column (scripted 0%Z 0%Z [] 0%Z 0%Z) example_error_text example_map
      example_make_string example_extract example_memory example_float_eqb
      example_converted_eqb (two_rows 13) 12 initial_world
    = (Ok ([], {| ma_data := nd_array items; ma_mask := nomask |}),
       add_warning (add_calls initial_world [c_result_fetch 77%Z 12 0%Z])
         time_warning)
    /\ length items = 2%nat
    /\ forall r v, items !! r = Some v ->
         example_extract
           {| col_type := 12%Z; col_name := None; col_count := 2;
              col_data := 64%Z |} r
         = Ok v.
Proof.
  exact (fetch_column_time (scripted 0%Z 0%Z [] 0%Z 0%Z) example_error_text
           example_map example_make_string example_extract example_memory
           example_float_eqb example_converted_eqb (two_rows 13) 12
           initial_world _ _
           eq_refl eq_refl ltac:(discriminate) ltac:(discriminate)
           eq_refl eq_refl (fun _ _ => eq_refl)).
Defined.

(** C8.  The engine reports a failure for [get_columns] (status 1, nothing
    written to the out-parameters): the status is dropped, no exception is
    raised, and the generator is simply empty. *)
Theorem get_columns_failure_not_raised :
  let lib := scripted 0%Z 0%Z [] 1%Z 0%Z in
  let g := get_columns (in_memory_session 1) (lit "missing") (lit "sys") in
  list_ lib example_resolve g (world_with 1 5%Z true)
  = (Ok [], add_calls (world_with 1 5%Z true)
              [c_get_columns 5%Z (map byte_of_N (lit "sys"))
                 (map byte_of_N (lit "missing")) [] 1%Z])
  /\ next_ lib example_resolve g (world_with 1 5%Z true)
     = (Raise StopIteration, gen_finished,
        add_calls (world_with 1 5%Z true)
          [c_get_columns 5%Z (map byte_of_N (lit "sys"))
             (map byte_of_N (lit "missing")) [] 1%Z]).
Proof. by vm_compute. Qed.

(** C5.  An append to a table for which the engine reports no column (it
    does not exist): the names of the batch are not the names of the table,
    yet what is raised is the [ValueError] of the failed unpacking, not a
    [ProgrammingError]. *)
Theorem append_missing_table_value_error :
  append (scripted 0%Z 0%Z [] 1%Z 0%Z) example_resolve example_error_text
    example_map example_numpy_monetdb_map example_name_buffer
    (in_memory_session 1)
    (lit "missing") [(lit "a", int32_values)] (lit "sys") (world_with 1 5%Z true)
  = (Raise (ValueError (lit "not enough values to unpack (expected 2, got 0)")),
     add_calls (world_with 1 5%Z true)
       [c_get_columns 5%Z (map byte_of_N (lit "sys"))
          (map byte_of_N (lit "missing")) [] 1%Z]).
Proof. by vm_compute. Qed.

(** C6 at a column whose declared type has no entry in the table: the
    array maps to [int32_t] (tag 3), the engine declares tag 14, and what
    is raised is the [KeyError] of the look-up, not a [ProgrammingError]. *)
Lemma append_type_differs_witness :
  let lib := scripted 0%Z 0%Z [(lit "a", 14%Z)] 0%Z 0%Z in
  example_map 14%Z = None
  /\ example_numpy_monetdb_map (cv_dtype int32_values) = Ok (lit "int32_t", 3%Z)
  /\ append lib example_resolve example_error_text example_map
       example_numpy_monetdb_map example_name_buffer (in_memory_session 1)
       (lit "t") [(lit "a", int32_values)] (lit "sys") (world_with 1 5%Z true)
     = (Raise KeyError,
        add_calls (world_with 1 5%Z true)
          [c_get_columns 5%Z (ascii_bytes "sys") (ascii_bytes "t")
             [(lit "a", 14%Z)] 0%Z]).
Proof.
  intros lib. split; [reflexivity|]. split; [reflexivity|].
  destruct (append_type_differs lib example_resolve example_error_text
              example_map example_numpy_monetdb_map example_name_buffer
              (in_memory_session 1) (lit "t") [(lit "a", int32_values)]
              (lit "sys") (world_with 1 5%Z true) 5%Z
              (ascii_bytes "sys") (ascii_bytes "t"))
    as (pre & column & post & values & ws & wt & Hcols & _ & _ & _ & _ & Happ & _).
  - reflexivity.
  - reflexivity.
  - reflexivity.
  - reflexivity.
  - apply NoDup_singleton.
  - reflexivity.
  - by repeat constructor.
  - constructor; [by eexists|constructor].
  - apply Exists_cons_hd. exists int32_values, (lit "int32_t"), 3%Z.
    by repeat split.
  - change (existing_columns_of lib (world_with 1 5%Z true) 5%Z
              (ascii_bytes "sys") (ascii_bytes "t"))
      with [(lit "a", 14%Z)] in Hcols.
    destruct pre as [|c0 pre]; simpl in Hcols.
    + injection Hcols as <- <-. exact Happ.
    + injection Hcols as _ Hrest. by destruct pre.
Defined.

(** A table [t(a int, b int)] and a batch whose [b] is an array of 64-bit
    integers: the message names the type of the array and the type of the
    table column. *)
Example append_int64_into_int32 :
  append (scripted 0%Z 0%Z [(lit "a", 3%Z); (lit "b", 3%Z)] 0%Z 0%Z)
    example_resolve example_error_text example_map
    example_numpy_monetdb_map example_name_buffer (in_memory_session 1)
    (lit "t") [(lit "a", int32_values); (lit "b", int64_values)] (lit "sys")
    (world_with 1 5%Z true)
  = (Raise (ProgrammingError
              (lit "Type 'int64_t' for appended column 'b' does not match table type 'int32_t'")),
     add_calls (world_with 1 5%Z true)
       [c_get_columns 5%Z (ascii_bytes "sys") (ascii_bytes "t")
          [(lit "a", 3%Z); (lit "b", 3%Z)] 0%Z]).
Proof. by vm_compute. Qed.

(** An [int] bound as a parameter: the engine gets the two bytes of the
    text "42". *)
Lemma bind_sends_text_witness :
  bind (scripted 0%Z 0%Z [] 0%Z 0%Z) example_error_text 4300%Z 3000%Z
    (py_int 42) 0%Z initial_world
  = (Ok tt, add_calls initial_world [c_bind 3000%Z [Byte.x34; Byte.x32] 0%Z 0%Z])
  /\ [52; 50]%N = lit "42".
Proof.
  exact (bind_sends_text (scripted 0%Z 0%Z [] 0%Z 0%Z) example_error_text
           4300%Z 3000%Z (py_int 42) 0%Z initial_world
           [52; 50]%N [Byte.x34; Byte.x32] eq_refl eq_refl eq_refl).
Defined.

(** Values of other types: [None], a bool and a string outside ASCII are
    sent as the bytes of their text. *)
Example bind_other_values :
  let lib := scripted 0%Z 0%Z [] 0%Z 0%Z in
  calls (bind lib example_error_text 4300%Z 3000%Z py_none 0%Z initial_world).2
  = [c_bind 3000%Z (ascii_bytes "None") 0%Z 0%Z]
  /\ calls (bind lib example_error_text 4300%Z 3000%Z (py_bool true) 1%Z
             initial_world).2
     = [c_bind 3000%Z (ascii_bytes "True") 1%Z 0%Z]
  /\ calls (bind lib example_error_text 4300%Z 3000%Z (py_str [233; 8364]%N) 2%Z
             initial_world).2
     = [c_bind 3000%Z [Byte.xc3; Byte.xa9; Byte.xe2; Byte.x82; Byte.xac] 2%Z 0%Z].
Proof. by vm_compute. Qed.

(** What stops [bind] before the engine: a text that cannot be encoded, an
    index that does not fit a [size_t], an [int] beyond the digit limit. *)
Example bind_refused :
  let lib := scripted 0%Z 0%Z [] 0%Z 0%Z in
  bind lib example_error_text 4300%Z 3000%Z (py_str [55296]%N) 0%Z initial_world
  = (Raise UnicodeEncodeError, initial_world)
  /\ bind lib example_error_text 4300%Z 3000%Z (py_int 42) (-1)%Z initial_world
     = (Raise OverflowError, initial_world)
  /\ bind lib example_error_text 4300%Z 3000%Z (py_int (10 ^ 4300)) 0%Z
       initial_world
     = (Raise (ValueError
                 (lit "Exceeds the limit (4300 digits) for integer string conversion; use sys.set_int_max_str_digits() to increase the limit")),
        initial_world).
Proof. by vm_compute. Qed.

(** ** Further properties at concrete inputs *)

Lemma get_columns_consumed_witness :
  let lib := scripted 0%Z 0%Z [(lit "a", 3%Z); (lit "b", 4%Z)] 0%Z 0%Z in
  let g := get_columns (in_memory_session 1) (lit "t") (lit "sys") in
  let w' := add_calls (world_with 1 5%Z true)
              [c_get_columns 5%Z (ascii_bytes "sys") (ascii_bytes "t")
                 [(lit "a", 3%Z); (lit "b", 4%Z)] 0%Z] in
  iterate lib example_resolve 4 g [] (world_with 1 5%Z true)
  = Some (Ok [(lit "a", 3%Z); (lit "b", 4%Z)], gen_finished, w')
  /\ next_ lib example_resolve g (world_with 1 5%Z true)
     = (Ok (lit "a", 3%Z), gen_suspended [(lit "b", 4%Z)], w').
Proof.
  intros lib g w'.
  pose proof (get_columns_consumed lib example_resolve (in_memory_session 1)
                (lit "t") (lit "sys") (world_with 1 5%Z true) 5%Z
                (ascii_bytes "sys") (ascii_bytes "t")
                eq_refl eq_refl eq_refl eq_refl) as H.
  split; [exact (proj1 H)|exact (proj1 (proj2 H))].
Defined.

Lemma query_active_witness :
  query (scripted 0%Z 0%Z [] 0%Z 0%Z) example_resolve example_error_text
    (in_memory_session 1) (lit "SELECT 1") true (world_with 1 5%Z true)
  = (Ok (Some 2000%Z, 0%Z),
     add_calls (world_with 1 5%Z true)
       [c_query 5%Z (map byte_of_N (lit "SELECT 1")) true 2000%Z 0%Z 0%Z]).
Proof.
  exact (query_active (scripted 0%Z 0%Z [] 0%Z 0%Z) example_resolve
           example_error_text (in_memory_session 1) (lit "SELECT 1") true
           (world_with 1 5%Z true) 5%Z (map byte_of_N (lit "SELECT 1"))
           eq_refl eq_refl eq_refl).
Defined.

Lemma switch_takes_over_witness :
  _switch (scripted 0%Z 0%Z [] 0%Z 0%Z) example_resolve
    (on_disk_session 2 (lit "/db")) (world_with 1 5%Z false)
  = (Ok tt,
     {| _active_context := Some 2%nat; in_memory_active := false;
        _connection := Some 1001%Z;
        calls := [c_close 5%Z 0%Z;
                  c_open (Some (map byte_of_N (lit "/db")))
                    (options_of (on_disk_session 2 (lit "/db"))) 1001%Z 0%Z];
        warnings := [] |}).
Proof.
  exact (switch_takes_over (scripted 0%Z 0%Z [] 0%Z 0%Z) example_resolve
           (on_disk_session 2 (lit "/db")) (world_with 1 5%Z false)
           5%Z 1001%Z (Some (map byte_of_N (lit "/db")))
           eq_refl eq_refl ltac:(discriminate) eq_refl eq_refl eq_refl).
Defined.

Lemma cleanup_statement_after_takeover_witness :
  let lib := scripted 0%Z 0%Z [] 0%Z 0%Z in
  let self := on_disk_session 2 (lit "/db") in
  let w := world_with 1 5%Z false in
  calls (cleanup_statement lib example_resolve self 3005%Z w).2
  = [c_close 5%Z 0%Z;
     c_open (Some (map byte_of_N (lit "/db"))) (options_of self) 1001%Z 0%Z;
     c_cleanup_statement 1001%Z 3005%Z]
  /\ (cleanup_statement lib example_resolve self 3005%Z w).1 = Ok tt
  /\ _connection (cleanup_statement lib example_resolve self 3005%Z w).2
     = Some 1001%Z.
Proof.
  exact (cleanup_statement_after_takeover (scripted 0%Z 0%Z [] 0%Z 0%Z)
           example_resolve (on_disk_session 2 (lit "/db")) 3005%Z
           (world_with 1 5%Z false) 5%Z 1001%Z
           (Some (map byte_of_N (lit "/db")))
           eq_refl eq_refl ltac:(discriminate) eq_refl eq_refl eq_refl).
Defined.

Lemma fetch_column_converted_witness :
  exists items,
    fetch_column (scripted 0%Z 0%Z [] 0%Z 0%Z) example_error_text example_map
      example_make_string example_extract example_memory example_float_eqb
      example_converted_eqb (two_rows 10) 9 initial_world
    = (Ok ([], {| ma_data := nd_astype items (lit "str"); ma_mask := nomask |}),
       add_calls initial_world [c_result_fetch 77%Z 9 0%Z])
    /\ length items = 2%nat
    /\ forall r v, items !! r = Some v ->
         example_extract
           {| col_type := 9%Z; col_name := None; col_count := 2;
              col_data := 64%Z |} r
         = Ok v.
Proof.
  exact (fetch_column_converted (scripted 0%Z 0%Z [] 0%Z 0%Z) example_error_text
           example_map example_make_string example_extract example_memory
           example_float_eqb example_converted_eqb (two_rows 10) 9
           initial_world _ _ (lit "str")
           eq_refl eq_refl eq_refl (fun _ _ => eq_refl)
           (or_introl (conj eq_refl eq_refl))).
Defined.

(** A batch with the columns [b] and [c] for a table with the column
    [a]. *)
Lemma append_names_differ_witness :
  let lib := scripted 0%Z 0%Z [(lit "a", 3%Z)] 0%Z 0%Z in
  append lib example_resolve example_error_text example_map
    example_numpy_monetdb_map example_name_buffer (in_memory_session 1)
    (lit "t") [(lit "b", int32_values); (lit "c", int32_values)] (lit "sys")
    (world_with 1 5%Z true)
  = (Raise (ProgrammingError
              (lit "Appended column names (b, c) don't match existing column names (a)")),
     add_calls (world_with 1 5%Z true)
       [c_get_columns 5%Z (ascii_bytes "sys") (ascii_bytes "t")
          [(lit "a", 3%Z)] 0%Z]).
Proof.
  intros lib.
  apply (append_names_differ lib example_resolve example_error_text example_map
           example_numpy_monetdb_map example_name_buffer (in_memory_session 1)
           (lit "t") [(lit "b", int32_values); (lit "c", int32_values)]
           (lit "sys") (world_with 1 5%Z true) 5%Z
           (ascii_bytes "sys") (ascii_bytes "t"));
    try reflexivity.
  - discriminate.
  - intros H.
    assert (Hin : lit "a" ∈ (list_to_set [lit "b"; lit "c"] : gset str)).
    { change (lit "a" ∈ (list_to_set
                (map fst [(lit "b", int32_values); (lit "c", int32_values)])
                : gset str)).
      rewrite <- H. apply elem_of_list_to_set. by left. }
    apply elem_of_list_to_set in Hin.
    apply elem_of_cons in Hin as [Hin|Hin]; [discriminate Hin|].
    apply list_elem_of_singleton in Hin. discriminate Hin.
Defined.


Lemma append_checks_first_witness :
  let lib := scripted 0%Z 0%Z [(lit "a", 3%Z); (lit "b", 4%Z)] 0%Z 0%Z in
  let data := [(lit "b", int64_values); (lit "a", int32_values)] in
  list_to_set (map fst (existing_columns_of lib (world_with 1 5%Z true) 5%Z
                          (map byte_of_N (lit "sys")) (map byte_of_N (lit "t"))))
    = (list_to_set (map fst data) : gset str)
  /\ Forall (column_passes example_numpy_monetdb_map data)
       (existing_columns_of lib (world_with 1 5%Z true) 5%Z
          (map byte_of_N (lit "sys")) (map byte_of_N (lit "t"))).
Proof.
  intros lib data.
  apply (append_checks_first lib example_resolve example_error_text example_map
           example_numpy_monetdb_map example_name_buffer (in_memory_session 1)
           (lit "t") data
           (lit "sys") (world_with 1 5%Z true) 5%Z
           (map byte_of_N (lit "sys")) (map byte_of_N (lit "t")));
    reflexivity.
Defined.

(** A result of three columns whose second column has a type the table
    does not know: the third column is never fetched. *)
Example result_fetch_numpy_stops :
  result_fetch_numpy (scripted 0%Z 0%Z [] 0%Z 0%Z) example_error_text
    (fun tag => if (tag =? 1)%Z then None else example_map 3%Z)
    example_make_string example_extract example_memory example_float_eqb
    example_converted_eqb (two_rows 3) initial_world
  = (Raise KeyError,
     add_calls initial_world
       [c_result_fetch 77%Z 0 0%Z; c_result_fetch 77%Z 1 0%Z]).
Proof. by vm_compute. Qed.

(** An [int] bound as a parameter: the sign and the digits, in ASCII. *)
Lemma bind_int_sent_witness :
  bind (scripted 0%Z 0%Z [] 0%Z 0%Z) example_error_text 4300%Z 3000%Z
    (py_int (-42)) 7%Z initial_world
  = (Ok tt,
     add_calls initial_world
       [c_bind 3000%Z [Byte.x2d; Byte.x34; Byte.x32] 7%Z 0%Z]).
Proof.
  exact (proj2 (bind_int_sent (scripted 0%Z 0%Z [] 0%Z 0%Z) example_error_text
                  4300%Z 3000%Z (-42)%Z 7%Z initial_world)).
Defined.

(** A byte does not occur in a given text. *)
Ltac absent :=
  let H := fresh in
  intros H; cbv in H;
  repeat (apply elem_of_cons in H as [H|H]; [discriminate H|]);
  by apply elem_of_nil in H.

Lemma convert_timestamp_parts_witness :
  convert_timestamp (list Z) example_int_of_bytes example_int_of_str
    example_decode example_datetime (ascii_bytes "2020-01-02 03:04:05.5")
  = Ok [2020; 1; 2; 3; 4; 5; 500000]%Z.
Proof.
  refine (convert_timestamp_parts (list Z) example_int_of_bytes
            example_int_of_str example_decode example_datetime
            (ascii_bytes "2020") (ascii_bytes "01") (ascii_bytes "02")
            (ascii_bytes "03") (ascii_bytes "04") (ascii_bytes "05")
            [ascii_bytes "5"] 2020 1 2 3 4 5 _ _ _
            eq_refl eq_refl eq_refl eq_refl eq_refl eq_refl).
  - repeat constructor; absent.
  - repeat constructor; absent.
  - repeat constructor; absent.
Defined.

(** Seven digits are cut to six; two digits are padded to six. *)
Lemma format_0_6_value_witness :
  (format_0_6 (lit "1234567") = lit "123456"
   /\ decimal (format_0_6 (lit "1234567")) = 123456%Z)
  /\ (format_0_6 (lit "05") = lit "050000"
      /\ decimal (format_0_6 (lit "05")) = 50000%Z
      /\ (0 <= decimal (format_0_6 (lit "05")) < 10 ^ 6)%Z).
Proof.
  pose proof (format_0_6_value (lit "1234567")) as (_ & H1 & H2 & _).
  pose proof (format_0_6_value (lit "05")) as (_ & H3 & H4 & H5).
  split; [split; [exact H1|exact H2]|].
  split; [exact H3|]. split; [exact H4|].
  apply H5. by repeat constructor.
Defined.

Lemma convert_timestamp_no_space_witness :
  convert_timestamp (list Z) example_int_of_bytes example_int_of_str
    example_decode example_datetime (ascii_bytes "2020-01-02T03:04:05")
  = Raise (not_enough 2 1).
Proof.
  apply (convert_timestamp_no_space (list Z) example_int_of_bytes
           example_int_of_str example_decode example_datetime
           (ascii_bytes "2020-01-02T03:04:05")).
  absent.
Defined.
